(** * marker/extract_text.py: text extraction and OCR quality decisions

    A shallow embedding of [src/marker/extract_text.py] and the
    properties its specification states about it.

    Conventions of the embedding.
    - A Python [str] is a Rocq [string]; the character with code [n] is
      the code point U+00[n], so texts range over U+0000..U+00FF and the
      character classes below are Python's own tables on that range.
    - A Python [int] is a [Z]; [len] and [str.count] give a [nat] that is
      injected into [Z] or [Q] where arithmetic is done on it.
    - A Python [float] is idealised as an exact rational ([Q]): [a / b]
      on two ints is the exact quotient, a float literal is the decimal it
      is written as, and comparisons are exact.  Python rounds quotients
      and literals to binary64; with the default thresholds .8, .5, .3 and
      the constant .6, on texts shorter than 2^50 characters, that
      rounding does not change the outcome of any comparison the module
      makes.
    - An exception is a value of [exn]; code that may raise returns a
      [result]. *)

From Stdlib Require Import ZArith QArith String Ascii List Sorted Bool Lia.
From Stdlib Require Import Decimal DecimalString DecimalZ.
Import ListNotations.

Open Scope bool_scope.
Open Scope list_scope.
Open Scope string_scope.
Open Scope Z_scope.

(* ================================================================== *)
(** ** Python builtins used by the module *)

Module Py.

(** Exceptions, by the classes the module's [except] clauses tell apart. *)
Inductive exn : Type :=
| RuntimeError
| ZeroDivisionError
| OtherException (name : string).

Inductive result (A : Type) : Type :=
| Ok (a : A)
| Raise (e : exn).

Arguments Ok {A} a.
Arguments Raise {A} e.

Definition bind {A B} (c : result A) (k : A -> result B) : result B :=
  match c with
  | Ok a => k a
  | Raise e => Raise e
  end.

(** [try: body / except RuntimeError: handler]. *)
Definition try_except_RuntimeError {A} (body handler : result A) : result A :=
  match body with
  | Raise RuntimeError => handler
  | other => other
  end.

(** [str.isspace] of one character (U+0000..U+00FF). *)
Definition isspace (c : ascii) : bool :=
  let n := nat_of_ascii c in
  (((9 <=? n) && (n <=? 13)) || ((28 <=? n) && (n <=? 32))
   || (n =? 133) || (n =? 160))%nat.

(** [str.isalnum] of one character (U+0000..U+00FF). *)
Definition isalnum_char (c : ascii) : bool :=
  let n := nat_of_ascii c in
  (((48 <=? n) && (n <=? 57)) || ((65 <=? n) && (n <=? 90))
   || ((97 <=? n) && (n <=? 122))
   || (n =? 170) || (n =? 178) || (n =? 179) || (n =? 181)
   || (n =? 185) || (n =? 186) || ((188 <=? n) && (n <=? 190))
   || ((192 <=? n) && (n <=? 214)) || ((216 <=? n) && (n <=? 246))
   || ((248 <=? n) && (n <=? 255)))%nat.

(** Truth value of a string: non-empty. *)
Definition truthy (s : string) : bool :=
  match s with
  | EmptyString => false
  | String _ _ => true
  end.

Fixpoint all_chars (p : ascii -> bool) (s : string) : bool :=
  match s with
  | EmptyString => true
  | String c s' => p c && all_chars p s'
  end.

Fixpoint any_char (p : ascii -> bool) (s : string) : bool :=
  match s with
  | EmptyString => false
  | String c s' => p c || any_char p s'
  end.

(** [s.isalnum()]: at least one character and all of them alphanumeric. *)
Definition isalnum (s : string) : bool := truthy s && all_chars isalnum_char s.

(** Number of characters of [s] that satisfy [p]. *)
Fixpoint count_if (p : ascii -> bool) (s : string) : nat :=
  match s with
  | EmptyString => O
  | String c s' => ((if p c then 1 else 0) + count_if p s')%nat
  end.

(** [s.count(c)] for a one-character [c]. *)
Definition count (c : ascii) (s : string) : nat := count_if (Ascii.eqb c) s.

(** [s.lstrip()]. *)
Fixpoint lstrip (s : string) : string :=
  match s with
  | EmptyString => EmptyString
  | String c s' => if isspace c then lstrip s' else s
  end.

(** [s.rstrip()]. *)
Fixpoint rstrip (s : string) : string :=
  match s with
  | EmptyString => EmptyString
  | String c s' =>
      match rstrip s' with
      | EmptyString => if isspace c then EmptyString else String c EmptyString
      | r => String c r
      end
  end.

(** [s.strip()]. *)
Definition strip (s : string) : string := lstrip (rstrip s).

(** [c * n] for a one-character string [c]. *)
Fixpoint repeat_char (c : ascii) (n : nat) : string :=
  match n with
  | O => EmptyString
  | S n' => String c (repeat_char c n')
  end.

(** [sep.join(l)]. *)
Definition join (sep : string) (l : list string) : string := String.concat sep l.

(** [str(n)] and the [{n}] of an f-string, for an int. *)
Definition str_of_int (n : Z) : string := NilZero.string_of_int (Z.to_int n).

(** [a / b] on ints. *)
Definition truediv (a b : Z) : result Q :=
  if b =? 0 then Raise ZeroDivisionError else Ok (inject_Z a / inject_Z b)%Q.

(** [x < y] on numbers. *)
Definition Qltb (x y : Q) : bool := negb (Qle_bool y x).

End Py.

Import Py.

Notation "x <- c ;; k" := (Py.bind c (fun x => k))
  (at level 61, c at next level, right associativity).
Notation "' pat <- c ;; k" := (Py.bind c (fun x => match x with pat => k end))
  (at level 61, pat pattern, c at next level, right associativity).

(* ================================================================== *)
(** ** The rendering and OCR engine, as the module sees it *)

Module Fitz.

(** A bounding box [(x0, y0, x1, y1)]: left, top, right, bottom. *)
Record BBox : Type := mkBBox { x0 : Q; y0 : Q; x1 : Q; y1 : Q }.

(** The span, line and block dictionaries of [page.get_text("dict")],
    with the keys the module reads. *)
Module SpanDict.
Record t : Type := mk {
  text : string;
  bbox : BBox;
  font : string;
  flags : Z;
  color : Z;
  ascender : Q;
  descender : Q
}.
End SpanDict.

Module LineDict.
Record t : Type := mk { spans : list SpanDict.t; bbox : BBox }.
End LineDict.

Module BlockDict.
Record t : Type := mk { lines : list LineDict.t; bbox : BBox }.
End BlockDict.

(** What a page object answers to the calls the module makes on it.
    - [get_text_dict]: the ["blocks"] of
      [page.get_text("dict", sort=True, flags=TEXT_FLAGS)].
    - [textpage_ocr dpi lang]: the three engine calls inside the [try] of
      [ocr_entire_page] (build the OCR text page at [dpi], read its blocks
      and its plain text): either one of them raises, or they give the
      OCR blocks and [full_text].
    - [clip_ocr dpi bbox lang]: the pixmap of the clip [bbox] at [dpi]
      (taken to be delivered: the call sits outside the [try]) and the
      three engine calls inside the [try] of [ocr_bbox]: either one of
      them raises, or they give the recognized text. *)
Record Page : Type := mkPage {
  get_text_dict : list BlockDict.t;
  textpage_ocr : Z -> string -> result (list BlockDict.t * string);
  clip_ocr : Z -> BBox -> string -> result string
}.

(** A table-of-contents entry [[lvl, title, page]]. *)
Definition TocEntry : Type := (Z * string * Z)%type.

(** A document: iterating it yields its pages; [len(doc)] is their
    number. *)
Record Document : Type := mkDocument {
  pages : list Page;
  get_toc : list TocEntry
}.

End Fitz.

(* ================================================================== *)
(** ** marker.schema *)

Module Schema.

Import Fitz.

Module Span.
(** Modelled from the spec: the class [Span] of [marker/schema.py],
    which is not among the sources; the attributes are those the spec's
    data model lists and [get_single_page_blocks] passes. *)
Record t : Type := mk {
  text : string;
  bbox : BBox;
  span_id : string;
  font : string;
  color : Z;
  ascender : Q;
  descender : Q
}.
End Span.

(** Modelled from the spec: the area of a bounding box, which
    [marker/schema.py] derives for every element that has one,
    "area = (right - left) x (bottom - top)". *)
Definition bbox_area (b : BBox) : Q := ((x1 b - x0 b) * (y1 b - y0 b))%Q.

Module Line.
(** Modelled from the spec: the class [Line] of [marker/schema.py]. *)
Record t : Type := mk { spans : list Span.t; bbox : BBox }.

(** Modelled from the spec: the derived attribute [area] of a line. *)
Definition area (l : t) : Q := bbox_area (bbox l).

(** Modelled from the spec: the concatenated text of a line's spans. *)
Definition prelim_text (l : t) : string :=
  String.concat "" (map Span.text (spans l)).
End Line.

Module Block.
(** Modelled from the spec: the class [Block] of [marker/schema.py]. *)
Record t : Type := mk { lines : list Line.t; bbox : BBox; pnum : Z }.
End Block.

Module Page.
(** Modelled from the spec: the class [Page] of [marker/schema.py]. *)
Record t : Type := mk { blocks : list Block.t; pnum : Z }.

Definition get_all_lines (p : t) : list Line.t :=
  flat_map Block.lines (blocks p).

(** Modelled from the spec: [Page.prelim_text] of [marker/schema.py],
    "concatenation of all span text in reading order". *)
Definition prelim_text (p : t) : string :=
  String.concat "" (map Line.prelim_text (get_all_lines p)).

(** Modelled from the spec: [Page.get_nonblank_lines] of
    [marker/schema.py], the "Lines whose concatenated text is non-blank
    after trimming". *)
Definition get_nonblank_lines (p : t) : list Line.t :=
  filter (fun l => truthy (strip (Line.prelim_text l))) (get_all_lines p).
End Page.

End Schema.

(* ================================================================== *)
(** ** marker.settings *)

(** Modelled from the spec: the options of [marker/settings.py] that
    the module reads ("full-page OCR DPI, fragment OCR DPI", "the cannot
    encode character set"); their values are not among the sources.
    [INVALID_CHARS] holds the one-character entries of the list. *)
Record Settings : Type := mkSettings {
  DPI : Z;
  SEGMENT_DPI : Z;
  INVALID_CHARS : list ascii
}.

(* ================================================================== *)
(** ** marker/extract_text.py *)

Import Fitz Schema.

Section ExtractText.

(** The configuration and the two text services the module calls:
    nltk's [wordpunct_tokenize] and the spell checker's
    [SpellChecker(language=lang).unknown(words)], given by the elements of
    the set it returns. *)
Variable settings : Settings.
Variable wordpunct_tokenize : string -> list string.
Variable spell_unknown : string -> list string -> list string.

(** [len(x)] as a number. *)
Definition len_str (s : string) : Z := Z.of_nat (String.length s).
Definition len_list {A} (l : list A) : Z := Z.of_nat (List.length l).

(** Lines 19-23: the misspelling test; it is not made when [spell_lang]
    is [None] or the empty string.  The product
    [len(words) * misspell_threshold] is the exact one; Python rounds it,
    and the threshold, to binary64, which for the default [.8] gives the
    same verdict and for other thresholds can differ when the count is
    at the product. *)
Definition misspell_test (words alpha_words nonalpha_words : list string)
    (spell_lang : option string) (misspell_threshold : Q) : bool :=
  match spell_lang with
  | Some lang =>
      truthy lang &&
      let misspelled := spell_unknown lang alpha_words in
      Qltb (inject_Z (len_list words) * misspell_threshold)
           (inject_Z (len_list misspelled + len_list nonalpha_words))
  | None => false
  end.

Definition detect_bad_ocr (text : string) (spell_lang : option string)
    (misspell_threshold space_threshold newline_threshold : Q) : result bool :=
  let words := wordpunct_tokenize text in
  let words := filter (fun w => truthy (strip w)) words in
  let alpha_words := filter isalnum words in
  let nonalpha_words := filter (fun w => negb (isalnum w)) words in
  if misspell_test words alpha_words nonalpha_words spell_lang misspell_threshold
  then Ok true
  else
    let spaces := Z.of_nat (count " " text) in
    space_ratio <- truediv spaces (len_str text) ;;
    if Qltb space_threshold space_ratio then Ok true
    else
      let newlines := Z.of_nat (count "010" text) in
      newline_ratio <- truediv newlines (len_str text) ;;
      if Qltb newline_threshold newline_ratio then Ok true
      else Ok false.

(** The call with the default thresholds [.8], [.5], [.3]. *)
Definition detect_bad_ocr_default (text : string) (spell_lang : option string)
    : result bool :=
  detect_bad_ocr text spell_lang 0.8%Q 0.5%Q 0.3%Q.

Definition ocr_entire_page (page : Fitz.Page) (lang : string)
    (spell_lang : option string) : result (list BlockDict.t) :=
  try_except_RuntimeError
    ('(blocks, full_text) <- textpage_ocr page (DPI settings) lang ;;
     bad <- detect_bad_ocr_default full_text spell_lang ;;
     if bad then Ok [] else Ok blocks)
    (Ok []).

Definition ocr_bbox (page : Fitz.Page) (old_text : string) (bbox : BBox)
    (lang : string) : result string :=
  match clip_ocr page (SEGMENT_DPI settings) bbox lang with
  | Raise RuntimeError => Ok old_text
  | Raise e => Raise e
  | Ok new_text =>
      if negb (truthy (strip new_text)) then Ok old_text
      else
        let lblanks := (String.length old_text - String.length (lstrip old_text))%nat in
        let rblanks := (String.length old_text - String.length (rstrip old_text))%nat in
        Ok (repeat_char " " lblanks ++ new_text ++ repeat_char " " rblanks)
  end.

(** Truth value of an int: non-zero. *)
Definition int_truthy (n : Z) : bool := negb (n =? 0).

Definition font_flags_decomposer (flags : Z) : string :=
  let l : list string := [] in
  let l := if int_truthy (Z.land flags (2 ^ 0))
           then (l ++ ["superscript"])%list else l in
  let l := if int_truthy (Z.land flags (2 ^ 1))
           then (l ++ ["italic"])%list else l in
  let l := if int_truthy (Z.land flags (2 ^ 2))
           then (l ++ ["serifed"])%list else (l ++ ["sans"])%list in
  let l := if int_truthy (Z.land flags (2 ^ 3))
           then (l ++ ["monospaced"])%list else (l ++ ["proportional"])%list in
  let l := if int_truthy (Z.land flags (2 ^ 4))
           then (l ++ ["bold"])%list else l in
  join "_" l.

(** [set(settings.INVALID_CHARS).intersection(block_text)] is non-empty. *)
Definition has_invalid_chars (block_text : string) : bool :=
  any_char (fun c => existsb (Ascii.eqb c) (INVALID_CHARS settings)) block_text.

(** The body of the loop over the spans of a line (lines 109-126) for
    one span [s], at counter value [span_id]. *)
Definition make_span (page : Fitz.Page) (pnum : Z) (tess_lang : string)
    (s : SpanDict.t) (span_id : Z) : result Span.t :=
  let block_text := SpanDict.text s in
  let bbox := SpanDict.bbox s in
  block_text <- (if has_invalid_chars block_text
                 then ocr_bbox page block_text bbox tess_lang
                 else Ok block_text) ;;
  Ok (Span.mk block_text bbox
        (str_of_int pnum ++ "_" ++ str_of_int span_id)
        (SpanDict.font s ++ "_" ++ font_flags_decomposer (SpanDict.flags s))
        (SpanDict.color s) (SpanDict.ascender s) (SpanDict.descender s)).

(** The loop over the spans of a line (lines 107-126): the spans
    appended, in order, and the counter after the loop. *)
Fixpoint build_spans (page : Fitz.Page) (pnum : Z) (tess_lang : string)
    (ss : list SpanDict.t) (span_id : Z) : result (list Span.t * Z) :=
  match ss with
  | [] => Ok ([], span_id)
  | s :: ss' =>
      span_obj <- make_span page pnum tess_lang s span_id ;;
      '(spans, span_id') <- build_spans page pnum tess_lang ss' (span_id + 1) ;;
      Ok (span_obj :: spans, span_id')
  end.

(** The loop over the lines of a block (lines 105-133): the lines
    appended to [block_lines], in order, and the counter after the loop. *)
Fixpoint build_lines (page : Fitz.Page) (pnum : Z) (tess_lang : string)
    (ls : list LineDict.t) (span_id : Z) : result (list Line.t * Z) :=
  match ls with
  | [] => Ok ([], span_id)
  | l :: ls' =>
      '(spans, span_id) <- build_spans page pnum tess_lang (LineDict.spans l) span_id ;;
      let line_obj := Line.mk spans (LineDict.bbox l) in
      '(block_lines, span_id') <- build_lines page pnum tess_lang ls' span_id ;;
      if Qltb 0 (Line.area line_obj)
      then Ok (line_obj :: block_lines, span_id')
      else Ok (block_lines, span_id')
  end.

(** The loop over the blocks of a page (lines 102-141): the blocks
    appended to [page_blocks], in order, and the counter after the loop. *)
Fixpoint build_blocks (page : Fitz.Page) (pnum : Z) (tess_lang : string)
    (bs : list BlockDict.t) (span_id : Z) : result (list Block.t * Z) :=
  match bs with
  | [] => Ok ([], span_id)
  | block :: bs' =>
      '(block_lines, span_id) <- build_lines page pnum tess_lang (BlockDict.lines block) span_id ;;
      let block_obj := Block.mk block_lines (BlockDict.bbox block) pnum in
      '(page_blocks, span_id') <- build_blocks page pnum tess_lang bs' span_id ;;
      if 0 <? len_list block_lines
      then Ok (block_obj :: page_blocks, span_id')
      else Ok (page_blocks, span_id')
  end.

Definition get_single_page_blocks (page : Fitz.Page) (pnum : Z)
    (tess_lang : string) (spell_lang : option string) (ocr : bool)
    : result (list Block.t) :=
  blocks <- (if ocr then ocr_entire_page page tess_lang spell_lang
             else Ok (get_text_dict page)) ;;
  '(page_blocks, _) <- build_blocks page pnum tess_lang blocks 0 ;;
  Ok page_blocks.

Definition alphanum_ratio (text : string) : result Q :=
  let alphanumeric_count := Z.of_nat (count_if isalnum_char text) in
  if len_str text =? 0 then
    if alphanumeric_count =? 0 then Ok 1%Q else Ok 0%Q
  else
    truediv alphanumeric_count (len_str text).

(** The variables the loop of [get_text_blocks] carries from one page to
    the next. *)
Record LoopState : Type := mkLoopState {
  all_blocks : list Page.t;
  page_extracted : bool
}.

(** The list [conditions] of lines 169-175. *)
Definition conditions (page_obj : Page.t) (page_extracted : bool)
    (pnum doc_len : Z) : result (list bool) :=
  trigger <-
    (if (len_list (Page.get_nonblank_lines page_obj) <? 3) && negb page_extracted
     then Ok true
     else ratio <- alphanum_ratio (Page.prelim_text page_obj) ;;
          Ok (Qltb ratio 0.6%Q)) ;;
  Ok [trigger; (2 <? pnum) && (pnum <? doc_len - 2)].

(** [all(l)]. *)
Definition all (l : list bool) : bool := forallb (fun b => b) l.

(** The body of the loop over the pages (lines 165-183), past the
    page-limit test. *)
Definition process_page (doc_len : Z) (tess_lang : string)
    (spell_lang : option string) (pnum : Z) (page : Fitz.Page)
    (st : LoopState) : result LoopState :=
  blocks <- get_single_page_blocks page pnum tess_lang None false ;;
  let page_obj := Page.mk blocks pnum in
  conds <- conditions page_obj (page_extracted st) pnum doc_len ;;
  '(page_obj, extracted) <-
    (if all conds
     then blocks <- get_single_page_blocks page pnum tess_lang spell_lang true ;;
          Ok (Page.mk blocks pnum, false)
     else Ok (page_obj, true)) ;;
  Ok (mkLoopState (all_blocks st ++ [page_obj])%list extracted).

(** [max_pages and pnum >= max_pages]. *)
Definition limit_reached (max_pages : option Z) (pnum : Z) : bool :=
  match max_pages with
  | Some m => int_truthy m && (m <=? pnum)
  | None => false
  end.

(** The loop [for pnum, page in enumerate(doc)] from page number [pnum]
    on, over the pages not yet visited. *)
Fixpoint pages_loop (doc_len : Z) (tess_lang : string)
    (spell_lang : option string) (max_pages : option Z)
    (rest : list Fitz.Page) (pnum : Z) (st : LoopState) : result LoopState :=
  match rest with
  | [] => Ok st
  | page :: rest' =>
      if limit_reached max_pages pnum then Ok st
      else
        st' <- process_page doc_len tess_lang spell_lang pnum page st ;;
        pages_loop doc_len tess_lang spell_lang max_pages rest' (pnum + 1) st'
  end.

Definition get_text_blocks (doc : Document) (tess_lang : string)
    (spell_lang : option string) (max_pages : option Z)
    : result (list Page.t * list TocEntry) :=
  let toc := get_toc doc in
  st <- pages_loop (len_list (pages doc)) tess_lang spell_lang max_pages
          (pages doc) 0 (mkLoopState [] false) ;;
  Ok (all_blocks st, toc).

End ExtractText.

(* ================================================================== *)
(** ** Notions the properties are stated with *)

(** The whitespace [s.lstrip()] removes: the longest prefix of
    whitespace characters. *)
Fixpoint leading_whitespace (s : string) : string :=
  match s with
  | EmptyString => EmptyString
  | String c s' =>
      if isspace c then String c (leading_whitespace s') else EmptyString
  end.

(** The whitespace [s.rstrip()] removes: the longest suffix of
    whitespace characters. *)
Fixpoint trailing_whitespace (s : string) : string :=
  match s with
  | EmptyString => EmptyString
  | String c s' => if all_chars isspace s then s else trailing_whitespace s'
  end.

(** Every character is the plain space U+0020. *)
Definition only_spaces (s : string) : bool := all_chars (Ascii.eqb " ") s.

(** The fraction of the characters of [text] that are [c], for a text
    that is not empty. *)
Definition char_fraction (c : ascii) (text : string) : Q :=
  (inject_Z (Z.of_nat (count c text)) / inject_Z (len_str text))%Q.

(** The tokens of [text] that are not blank, and among them the number
    that count as misspelt: the alphanumeric ones the spell checker does
    not know, and the ones that are not alphanumeric. *)
Definition tokens (tok : string -> list string) (text : string) : list string :=
  filter (fun w => truthy (strip w)) (tok text).


(** The full-page OCR attempt raises [RuntimeError], or the quality gate
    rejects the text the engine recognized. *)
Definition ocr_attempt_fails (settings : Settings)
    (tok : string -> list string) (unk : string -> list string -> list string)
    (page : Fitz.Page) (lang : string) (spell_lang : option string) : Prop :=
  textpage_ocr page (DPI settings) lang = Raise RuntimeError
  \/ exists blocks full_text,
       textpage_ocr page (DPI settings) lang = Ok (blocks, full_text)
       /\ detect_bad_ocr_default tok unk full_text spell_lang = Ok true.

(** The retention invariant: a kept line has positive area, a kept block
    has at least one line and all its lines are such. *)
Definition line_ok (l : Line.t) : Prop := (0 < Line.area l)%Q.

Definition block_ok (b : Block.t) : Prop :=
  Block.lines b <> [] /\ Forall line_ok (Block.lines b).

(** The spans of a page's blocks, in reading order. *)
Definition page_spans (blocks : list Block.t) : list Span.t :=
  flat_map (fun b => flat_map Line.spans (Block.lines b)) blocks.

(** The identifier ["<pnum>_<index>"]. *)
Definition span_id_of (pnum index : Z) : string :=
  str_of_int pnum ++ "_" ++ str_of_int index.

(** [start, start + 1, ..., start + n - 1]. *)
Fixpoint zrange (start : Z) (n : nat) : list Z :=
  match n with
  | O => []
  | S n' => start :: zrange (start + 1) n'
  end.

(** Number of span dictionaries in a list of lines, of blocks. *)
Definition span_total_lines (ls : list LineDict.t) : Z :=
  fold_right (fun l n => len_list (LineDict.spans l) + n) 0 ls.

Definition span_total_blocks (bs : list BlockDict.t) : Z :=
  fold_right (fun b n => span_total_lines (BlockDict.lines b) + n) 0 bs.

(** Construction positions: the span dictionaries of a page are counted
    from [start] in reading order, whether their line is kept or not;
    these are the positions of those that lie in a line of positive
    area. *)
Fixpoint retained_in_lines (ls : list LineDict.t) (start : Z) : list Z :=
  match ls with
  | [] => []
  | l :: ls' =>
      ((if Qltb 0 (bbox_area (LineDict.bbox l))
        then zrange start (List.length (LineDict.spans l)) else [])
       ++ retained_in_lines ls' (start + len_list (LineDict.spans l)))%list
  end.

Fixpoint retained_in_blocks (bs : list BlockDict.t) (start : Z) : list Z :=
  match bs with
  | [] => []
  | b :: bs' =>
      (retained_in_lines (BlockDict.lines b) start
       ++ retained_in_blocks bs' (start + span_total_lines (BlockDict.lines b)))%list
  end.

(** The block dictionaries [get_single_page_blocks] builds the page
    from: the OCR blocks on an OCR pass, the native ones otherwise. *)
Definition source_blocks (settings : Settings)
    (tok : string -> list string) (unk : string -> list string -> list string)
    (page : Fitz.Page) (lang : string) (spell_lang : option string)
    (ocr : bool) : result (list BlockDict.t) :=
  if ocr then ocr_entire_page settings tok unk page lang spell_lang
  else Ok (get_text_dict page).

(** The value [alphanum_ratio] returns: 1 on the empty text, otherwise
    the fraction of alphanumeric characters. *)
Definition alphanum_ratio_value (text : string) : Q :=
  match text with
  | EmptyString => 1%Q
  | _ => (inject_Z (Z.of_nat (count_if isalnum_char text)) / inject_Z (len_str text))%Q
  end.

(** The position condition: neither among the first 3 nor among the
    last 2 of [doc_len] pages. *)
Definition middle_page (pnum doc_len : Z) : Prop := 2 < pnum < doc_len - 2.

Section Run.

Variable settings : Settings.
Variable tok : string -> list string.
Variable unk : string -> list string -> list string.
Variable doc : Document.
Variable tess_lang : string.
Variable spell_lang : option string.

(** The loop variables when [get_text_blocks], run without a page
    limit, reaches the page of index [p]: the state after the pages
    before it. *)
Definition state_before (p : nat) : result LoopState :=
  pages_loop settings tok unk (len_list (pages doc)) tess_lang spell_lang None
    (firstn p (pages doc)) 0 (mkLoopState [] false).

(** The page object of the native pass (lines 165-166). *)
Definition native_page (page : Fitz.Page) (pnum : Z) : result Page.t :=
  blocks <- get_single_page_blocks settings tok unk page pnum tess_lang None false ;;
  Ok (Page.mk blocks pnum).

(** Whether the page of index [p] enters ocr-retry in that run: the
    value of [all(conditions)] there. *)
Definition enters_ocr_retry (p : nat) : result bool :=
  match nth_error (pages doc) p with
  | None => Ok false
  | Some page =>
      st <- state_before p ;;
      page_obj <- native_page page (Z.of_nat p) ;;
      conds <- conditions page_obj (page_extracted st) (Z.of_nat p)
                 (len_list (pages doc)) ;;
      Ok (all conds)
  end.

(** The page of index [q] kept its native extraction: [all(conditions)]
    was false there, and the loop passed the page by appending the page
    object of the native pass and setting the flag. *)
Definition kept_native (q : nat) : Prop :=
  exists page st page_obj,
    nth_error (pages doc) q = Some page
    /\ state_before q = Ok st
    /\ native_page page (Z.of_nat q) = Ok page_obj
    /\ enters_ocr_retry q = Ok false
    /\ state_before (S q)
       = Ok (mkLoopState (all_blocks st ++ [page_obj])%list true).

(** The page of index [q] was re-processed with full-page OCR:
    [all(conditions)] was true there, the OCR pass of
    [get_single_page_blocks] ran and returned, and the loop passed the
    page by appending the page object built from the blocks of that pass
    and clearing the flag. *)
Definition reprocessed_with_ocr (q : nat) : Prop :=
  exists page st blocks,
    nth_error (pages doc) q = Some page
    /\ state_before q = Ok st
    /\ enters_ocr_retry q = Ok true
    /\ get_single_page_blocks settings tok unk page (Z.of_nat q) tess_lang
         spell_lang true = Ok blocks
    /\ state_before (S q)
       = Ok (mkLoopState (all_blocks st ++ [Page.mk blocks (Z.of_nat q)])%list
               false).

(** In the words of the specification: some page before [p] achieved a
    successful native extraction, that is, its native extraction was
    kept. *)
Definition prior_native_success (p : nat) : Prop :=
  exists q, (q < p)%nat /\ kept_native q.

End Run.

(** The condition under which a page is sent to full-page OCR, given the
    page object of its native pass and the flag: the trigger (fewer than
    3 non-blank lines and a false flag, or an alphanumeric ratio below
    0.6) and the position. *)
Definition retry_condition (page_obj : Page.t) (flag : bool)
    (pnum doc_len : Z) : Prop :=
  ((len_list (Page.get_nonblank_lines page_obj) < 3 /\ flag = false)
   \/ (alphanum_ratio_value (Page.prelim_text page_obj) < 0.6)%Q)
  /\ middle_page pnum doc_len.

(** The number of pages the loop still visits when it stands at page
    number [pnum] with [n] pages left to iterate over. *)
Definition pages_left (max_pages : option Z) (pnum : Z) (n : nat) : nat :=
  match max_pages with
  | None => n
  | Some m => if m =? 0 then n else Nat.min (Z.to_nat (m - pnum)) n
  end.

(** The number of pages [get_text_blocks] visits on a document of [n]
    pages. *)
Definition page_limit (max_pages : option Z) (n : nat) : nat :=
  match max_pages with
  | None => n
  | Some m => if m =? 0 then n else Nat.min (Z.to_nat m) n
  end.

(** An engine call that returns or raises [RuntimeError], nothing
    else. *)
Definition runtime_error_at_most {A} (r : result A) : Prop :=
  match r with
  | Ok _ | Raise RuntimeError => True
  | Raise _ => False
  end.

(** A page on which fragment OCR and full-page OCR raise nothing but
    [RuntimeError], and full-page OCR never recognizes the empty text. *)
Definition well_behaved (settings : Settings) (lang : string)
    (page : Fitz.Page) : Prop :=
  (forall bbox, runtime_error_at_most (clip_ocr page (SEGMENT_DPI settings) bbox lang))
  /\ match textpage_ocr page (DPI settings) lang with
     | Ok (_, full_text) => full_text <> EmptyString
     | Raise RuntimeError => True
     | Raise _ => False
     end.

(* ================================================================== *)
(** ** Concrete services, pages and documents for the examples *)

Module Fixtures.

Definition settings : Settings := mkSettings 800 1200 ["~"%char].

(** nltk's [wordpunct_tokenize]: the maximal runs matched by
    [\w+|[^\w\s]+], left to right. *)
Inductive char_class : Type := WordChar | PunctChar | SpaceChar.

Definition classify (c : ascii) : char_class :=
  if isalnum_char c || Ascii.eqb c "_" then WordChar
  else if isspace c then SpaceChar
  else PunctChar.

Definition same_class (a b : char_class) : bool :=
  match a, b with
  | WordChar, WordChar | PunctChar, PunctChar | SpaceChar, SpaceChar => true
  | _, _ => false
  end.

Fixpoint tokens_from (s : string) (cur : option (char_class * string))
    : list string :=
  match s with
  | EmptyString =>
      match cur with
      | Some (_, t) => [t]
      | None => []
      end
  | String c s' =>
      match classify c, cur with
      | SpaceChar, Some (_, t) => t :: tokens_from s' None
      | SpaceChar, None => tokens_from s' None
      | k, Some (k', t) =>
          if same_class k k'
          then tokens_from s' (Some (k, t ++ String c EmptyString))
          else t :: tokens_from s' (Some (k, String c EmptyString))
      | k, None => tokens_from s' (Some (k, String c EmptyString))
      end
  end.

Definition wordpunct_tokenize (s : string) : list string := tokens_from s None.

(** A spell checker that knows a handful of words. *)
Definition dictionary : list string := ["alpha"; "beta"; "gamma"; "the"; "cat"].

Definition spell_unknown (lang : string) (words : list string) : list string :=
  nodup string_dec
    (filter (fun w => negb (existsb (String.eqb w) dictionary)) words).

Definition box : BBox := mkBBox 0 0 10 10.
Definition flat_box : BBox := mkBBox 0 5 10 5.

Definition span_of (text : string) : SpanDict.t :=
  SpanDict.mk text box "Times" 4 0 1 0.

Definition line_of (text : string) : LineDict.t :=
  LineDict.mk [span_of text] box.

Definition block_of (texts : list string) : BlockDict.t :=
  BlockDict.mk (map line_of texts) box.

(** A page of three blocks: a line of positive area followed by one of
    area zero; a block whose only line has area zero; a line of two
    spans. *)
Definition mixed_page : Fitz.Page :=
  mkPage
    [ BlockDict.mk [line_of "alpha"; LineDict.mk [span_of "rule"] flat_box] box;
      BlockDict.mk [LineDict.mk [span_of "ghost"] flat_box] box;
      BlockDict.mk [LineDict.mk [span_of "beta"; span_of "gamma"] box] box ]
    (fun _ _ => Raise RuntimeError)
    (fun _ _ _ => Raise RuntimeError).

(** A page whose native text is one block of the given lines, with a
    given outcome of full-page OCR; fragment OCR fails on it. *)
Definition page_of (texts : list string)
    (ocr : result (list BlockDict.t * string)) : Fitz.Page :=
  mkPage [block_of texts] (fun _ _ => ocr) (fun _ _ _ => Raise RuntimeError).

(** A page on which fragment OCR has a given outcome. *)
Definition clip_page (outcome : result string) : Fitz.Page :=
  mkPage [] (fun _ _ => Raise RuntimeError) (fun _ _ _ => outcome).

(** A span text that starts with a tab, U+0009. *)
Definition tab_abc : string := String "009" "abc".



Definition good_page : Fitz.Page :=
  page_of ["alpha"; "beta"; "gamma"] (Raise RuntimeError).

(** Native text of ratio 0: only characters that are not alphanumeric. *)
Definition garbled_page (ocr : result (list BlockDict.t * string)) : Fitz.Page :=
  page_of ["~~~~"; "~~"; "~~~"] ocr.

(** One line of good text; OCR recognizes one more word on it. *)
Definition sparse_page : Fitz.Page :=
  page_of ["alpha"] (Ok ([block_of ["alpha omega"]], "alpha omega")).

(** Seven pages: three good ones, a garbled one on which OCR fails, a
    sparse one, two good ones. *)
Definition doc_reset : Document :=
  mkDocument
    [good_page; good_page; good_page; garbled_page (Raise RuntimeError);
     sparse_page; good_page; good_page]
    [(1, "Title", 1)].

(** Ten pages; the page of index 5 is garbled and OCR fails on it. *)
Definition doc_ten : Document :=
  mkDocument
    [good_page; good_page; good_page; good_page; good_page;
     garbled_page (Raise RuntimeError);
     good_page; good_page; good_page; good_page]
    [(1, "Title", 1)].

(** A scanned page on which OCR recognizes nothing. *)
Definition blank_scan : Fitz.Page := garbled_page (Ok ([], "")).

(** Six pages; the page of index 3 is a blank scan. *)
Definition doc_blank_scan : Document :=
  mkDocument [good_page; good_page; good_page; blank_scan; good_page; good_page] [].

End Fixtures.

(* ================================================================== *)
(** ** The flag constant and further notions *)

(** Line 10: [TEXT_FLAGS], as a function of the six flag constants of
    the rendering library it combines; [~] binds tighter than [&], which
    associates to the left. *)
Definition TEXT_FLAGS (TEXT_PRESERVE_LIGATURES TEXT_PRESERVE_WHITESPACE
    TEXT_PRESERVE_IMAGES TEXT_INHIBIT_SPACES TEXT_DEHYPHENATE
    TEXT_MEDIABOX_CLIP : Z) : Z :=
  Z.land
    (Z.land
       (Z.land
          (Z.land
             (Z.land (Z.lnot TEXT_PRESERVE_LIGATURES) TEXT_PRESERVE_WHITESPACE)
             (Z.lnot TEXT_PRESERVE_IMAGES))
          (Z.lnot TEXT_INHIBIT_SPACES))
       TEXT_DEHYPHENATE)
    TEXT_MEDIABOX_CLIP.

(** The style tag spelt out from the five style bits: superscript,
    italic, serifed, monospaced, bold. *)
Definition font_style_tag (superscript italic serifed monospaced bold : bool)
    : string :=
  (if superscript then "superscript_" else "")
  ++ (if italic then "italic_" else "")
  ++ (if serifed then "serifed" else "sans")
  ++ "_"
  ++ (if monospaced then "monospaced" else "proportional")
  ++ (if bold then "_bold" else "").

(** Whether the misspelling test of [detect_bad_ocr] fires on [text]. *)
Definition misspelling_fires (tok : string -> list string)
    (unk : string -> list string -> list string) (text : string)
    (spell_lang : option string) (misspell_threshold : Q) : bool :=
  misspell_test unk (tokens tok text) (filter isalnum (tokens tok text))
    (filter (fun w => negb (isalnum w)) (tokens tok text))
    spell_lang misspell_threshold.

(** A line dictionary whose bounding box has positive area, and a
    block dictionary with at least one such line. *)
Definition positive_line (l : LineDict.t) : bool :=
  Qltb 0 (bbox_area (LineDict.bbox l)).

Definition kept_block (b : BlockDict.t) : bool :=
  existsb positive_line (BlockDict.lines b).

(** The span dictionaries that lie in a line of positive area, in
    reading order. *)
Definition retained_span_dicts (bs : list BlockDict.t) : list SpanDict.t :=
  flat_map
    (fun b => flat_map (fun l => if positive_line l then LineDict.spans l else [])
                (BlockDict.lines b))
    bs.

(** The span object [s] carries the attributes of the span dictionary
    [d]: its bounding box, color, ascender and descender, its font name
    with the style tag appended, and its text unless that holds an
    invalid character. *)
Definition span_from (settings : Settings) (d : SpanDict.t) (s : Span.t) : Prop :=
  Span.bbox s = SpanDict.bbox d
  /\ Span.font s = SpanDict.font d ++ "_" ++ font_flags_decomposer (SpanDict.flags d)
  /\ Span.color s = SpanDict.color d
  /\ Span.ascender s = SpanDict.ascender d
  /\ Span.descender s = SpanDict.descender d
  /\ (has_invalid_chars settings (SpanDict.text d) = false ->
      Span.text s = SpanDict.text d).

(** No span text of the blocks holds an invalid character. *)
Definition clean_spans (settings : Settings) (ss : list SpanDict.t) : bool :=
  forallb (fun s => negb (has_invalid_chars settings (SpanDict.text s))) ss.

Definition clean_lines (settings : Settings) (ls : list LineDict.t) : bool :=
  forallb (fun l => clean_spans settings (LineDict.spans l)) ls.

Definition clean_blocks (settings : Settings) (bs : list BlockDict.t) : bool :=
  forallb (fun b => clean_lines settings (BlockDict.lines b)) bs.

(** Every block of the page object carries the page's own number. *)
Definition page_numbered (pg : Page.t) : Prop :=
  Forall (fun b => Block.pnum b = Page.pnum pg) (Page.blocks pg).

Module MoreFixtures.

(** The native blocks of [Fixtures.mixed_page] on a page object whose
    OCR engine fails with an exception that is not a [RuntimeError]. *)
Definition broken_ocr_page : Fitz.Page :=
  mkPage (get_text_dict Fixtures.mixed_page)
    (fun _ _ => Raise (OtherException "ValueError"))
    (fun _ _ _ => Raise (OtherException "ValueError")).

End MoreFixtures.

(* ================================================================== *)
(** * Properties *)

(** ** The monad and the numeric comparisons *)

Lemma Qltb_lt (x y : Q) : Qltb x y = true <-> (x < y)%Q.
Proof.
  unfold Qltb. rewrite negb_true_iff, <- not_true_iff_false, Qle_bool_iff.
  split; [apply Qnot_le_lt | apply Qlt_not_le].
Qed.


Lemma truediv_ok (a b : Z) :
  b <> 0 -> truediv a b = Ok (inject_Z a / inject_Z b)%Q.
Proof.
  intros Hb. unfold truediv.
  destruct (Z.eqb_spec b 0); [contradiction | reflexivity].
Qed.

Lemma len_str_zero (s : string) : len_str s = 0 <-> s = EmptyString.
Proof.
  unfold len_str. destruct s; simpl; split; intros H; try reflexivity;
    try discriminate; lia.
Qed.

(** ** [detect_bad_ocr] on the empty text *)

Section EmptyText.

Variable settings : Settings.
Variable wordpunct_tokenize : string -> list string.
Variable spell_unknown : string -> list string -> list string.

Lemma detect_bad_ocr_empty (mt st nt : Q) :
  detect_bad_ocr wordpunct_tokenize spell_unknown EmptyString None mt st nt
  = Raise ZeroDivisionError.
Proof. reflexivity. Qed.

Lemma ocr_entire_page_empty_text (page : Fitz.Page) (lang : string)
    (blocks : list BlockDict.t) :
  textpage_ocr page (DPI settings) lang = Ok (blocks, EmptyString) ->
  ocr_entire_page settings wordpunct_tokenize spell_unknown page lang None
  = Raise ZeroDivisionError.
Proof.
  intros H. unfold ocr_entire_page. rewrite H. reflexivity.
Qed.

End EmptyText.

(** C1 (the code departs from the claim): [detect_bad_ocr] divides by
    [len(text)] without a guard, so on the empty text it raises
    [ZeroDivisionError] for every tokenizer and all thresholds; the
    [except RuntimeError] of [ocr_entire_page] does not catch it, so it
    escapes [ocr_entire_page] whenever the OCR engine recognizes an empty
    [full_text], and it escapes [get_text_blocks] on a six-page document
    whose page 3 is a blank scan. *)
Theorem C1_empty_text_raises :
  (forall tok unk mt st nt,
     detect_bad_ocr tok unk EmptyString None mt st nt = Raise ZeroDivisionError)
  /\ (forall cfg tok unk native clip blocks lang,
        ocr_entire_page cfg tok unk
          (mkPage native (fun _ _ => Ok (blocks, EmptyString)) clip) lang None
        = Raise ZeroDivisionError)
  /\ detect_bad_ocr Fixtures.wordpunct_tokenize Fixtures.spell_unknown
       EmptyString (Some "en") 0.8%Q 0.5%Q 0.3%Q = Raise ZeroDivisionError
  /\ get_text_blocks Fixtures.settings Fixtures.wordpunct_tokenize
       Fixtures.spell_unknown Fixtures.doc_blank_scan "eng" (Some "en") None
     = Raise ZeroDivisionError.
Proof.
  split; [| split; [| split]].
  - intros. apply detect_bad_ocr_empty.
  - intros. apply ocr_entire_page_empty_text with (blocks := blocks). reflexivity.
  - vm_compute. reflexivity.
  - vm_compute. reflexivity.
Qed.

(** ** Strings: trimming and padding *)

Lemma append_assoc (s t u : string) : (s ++ t) ++ u = s ++ (t ++ u).
Proof. induction s as [| c s IH]; simpl; [reflexivity | now rewrite IH]. Qed.

Lemma length_append (s t : string) :
  String.length (s ++ t) = (String.length s + String.length t)%nat.
Proof. induction s as [| c s IH]; simpl; [reflexivity | now rewrite IH]. Qed.

Lemma append_inv_head (s t u : string) : s ++ t = s ++ u -> t = u.
Proof.
  induction s as [| c s IH]; simpl; intros H; [exact H |].
  injection H as H. now apply IH.
Qed.

Lemma lstrip_split (s : string) : s = leading_whitespace s ++ lstrip s.
Proof.
  induction s as [| c s IH]; simpl; [reflexivity |].
  destruct (isspace c); simpl; [now rewrite <- IH | reflexivity].
Qed.

Lemma rstrip_empty_iff (s : string) :
  rstrip s = EmptyString <-> all_chars isspace s = true.
Proof.
  induction s as [| c s IH]; simpl; [tauto |].
  destruct (rstrip s) eqn:Hr.
  - destruct (isspace c); simpl.
    + split; [intros _; now apply IH | reflexivity].
    + split; discriminate.
  - split; [discriminate |].
    rewrite andb_true_iff. intros [_ H]. apply IH in H. discriminate.
Qed.

Lemma trailing_all_whitespace (s : string) :
  all_chars isspace s = true -> trailing_whitespace s = s.
Proof.
  destruct s as [| c s]; [reflexivity |].
  intros H. cbn [trailing_whitespace]. now rewrite H.
Qed.

Lemma rstrip_split (s : string) : s = rstrip s ++ trailing_whitespace s.
Proof.
  induction s as [| c s IH]; [reflexivity |].
  cbn [rstrip trailing_whitespace].
  destruct (all_chars isspace (String c s)) eqn:Hall.
  - apply rstrip_empty_iff in Hall. cbn [rstrip] in Hall. now rewrite Hall.
  - destruct (rstrip s) eqn:Hr.
    + assert (Hs : all_chars isspace s = true) by now apply rstrip_empty_iff.
      cbn [all_chars] in Hall. rewrite Hs, andb_true_r in Hall. rewrite Hall.
      simpl. now rewrite trailing_all_whitespace.
    + rewrite IH at 1. reflexivity.
Qed.

Lemma lstrip_append (s t : string) :
  truthy (lstrip s) = true -> lstrip (s ++ t) = lstrip s ++ t.
Proof.
  induction s as [| c s IH]; simpl; [discriminate |].
  destruct (isspace c); [exact IH | reflexivity].
Qed.

Lemma leading_whitespace_append (s t : string) :
  truthy (lstrip s) = true -> leading_whitespace (s ++ t) = leading_whitespace s.
Proof.
  induction s as [| c s IH]; simpl; [discriminate |].
  destruct (isspace c); [| reflexivity].
  intros H. now rewrite IH.
Qed.

(** A text that is not blank is its leading whitespace, its stripped
    form and its trailing whitespace. *)
Lemma strip_split (s : string) :
  truthy (strip s) = true ->
  s = leading_whitespace s ++ strip s ++ trailing_whitespace s.
Proof.
  intros H. unfold strip in *.
  rewrite (rstrip_split s) at 1 2.
  rewrite (leading_whitespace_append _ _ H).
  rewrite <- append_assoc, <- lstrip_split. reflexivity.
Qed.

Lemma lblanks_length (s : string) :
  (String.length s - String.length (lstrip s))%nat
  = String.length (leading_whitespace s).
Proof.
  rewrite (lstrip_split s) at 1. rewrite length_append. lia.
Qed.

Lemma rblanks_length (s : string) :
  (String.length s - String.length (rstrip s))%nat
  = String.length (trailing_whitespace s).
Proof.
  rewrite (rstrip_split s) at 1. rewrite length_append. lia.
Qed.

Lemma repeat_only_spaces (s : string) :
  only_spaces s = true -> repeat_char " " (String.length s) = s.
Proof.
  unfold only_spaces. induction s as [| c s IH]; [reflexivity |].
  cbn [all_chars String.length repeat_char].
  rewrite andb_true_iff. intros [Hc Hs].
  apply Ascii.eqb_eq in Hc. subst c. now rewrite IH.
Qed.

Lemma lstrip_head (s : string) :
  truthy (lstrip s) = true ->
  exists c t, lstrip s = String c t /\ isspace c = false.
Proof.
  induction s as [| c s IH]; simpl; [discriminate |].
  destruct (isspace c) eqn:Hc; [exact IH |].
  intros _. now exists c, s.
Qed.

Lemma rstrip_head (c : ascii) (t : string) :
  isspace c = false -> exists r, rstrip (String c t) = String c r.
Proof.
  intros Hc. cbn [rstrip]. rewrite Hc.
  destruct (rstrip t) as [| d r]; eexists; reflexivity.
Qed.

(** The stripped form of a text that is not blank is not blank. *)
Lemma strip_strip_truthy (s : string) :
  truthy (strip s) = true -> truthy (strip (strip s)) = true.
Proof.
  intros H. unfold strip at 2.
  destruct (lstrip_head _ H) as (c & t & Heq & Hc). rewrite Heq.
  destruct (rstrip_head c t Hc) as [r Hr].
  unfold strip. rewrite Hr. cbn [lstrip]. now rewrite Hc.
Qed.

(** ** [ocr_bbox] *)

Section OcrBbox.

Variable settings : Settings.

(** What [ocr_bbox] returns when the engine recognizes a text that is
    not blank: that text between as many spaces as the original has
    leading and trailing whitespace characters. *)
Lemma ocr_bbox_recognized (page : Fitz.Page) (old_text new_text : string)
    (bbox : BBox) (lang : string) :
  clip_ocr page (SEGMENT_DPI settings) bbox lang = Ok new_text ->
  truthy (strip new_text) = true ->
  ocr_bbox settings page old_text bbox lang
  = Ok (repeat_char " " (String.length (leading_whitespace old_text))
        ++ new_text
        ++ repeat_char " " (String.length (trailing_whitespace old_text))).
Proof.
  intros Hocr Hnb. unfold ocr_bbox. rewrite Hocr, Hnb. cbn [negb].
  now rewrite lblanks_length, rblanks_length.
Qed.

End OcrBbox.

(** C4 (as the code has it): if the OCR engine returns the stripped
    form of the original text, that form is not blank, and every
    character trimmed from the left and from the right of the original is
    a plain space, then [ocr_bbox] returns the original text. *)
Theorem C4_roundtrip_plain_spaces (settings : Settings) (page : Fitz.Page)
    (old_text : string) (bbox : BBox) (lang : string) :
  clip_ocr page (SEGMENT_DPI settings) bbox lang = Ok (strip old_text) ->
  truthy (strip old_text) = true ->
  only_spaces (leading_whitespace old_text) = true ->
  only_spaces (trailing_whitespace old_text) = true ->
  ocr_bbox settings page old_text bbox lang = Ok old_text.
Proof.
  intros Hocr Hnb Hl Hr.
  rewrite (ocr_bbox_recognized _ _ _ _ _ _ Hocr (strip_strip_truthy _ Hnb)).
  rewrite (repeat_only_spaces _ Hl), (repeat_only_spaces _ Hr).
  now rewrite <- strip_split.
Qed.

Lemma C4_roundtrip_witness :
  ocr_bbox Fixtures.settings (Fixtures.clip_page (Ok "abc")) "  abc "
    Fixtures.box "eng" = Ok "  abc ".
Proof.
  apply C4_roundtrip_plain_spaces; reflexivity.
Defined.

(** C4 as stated fails: the original text "<TAB>abc" is not blank, the
    engine returns its stripped form "abc", and [ocr_bbox] returns
    " abc", with a space where the tab was. *)
Lemma C4_tab_not_restored :
  let old_text := Fixtures.tab_abc in
  let page := Fixtures.clip_page (Ok (strip old_text)) in
  clip_ocr page (SEGMENT_DPI Fixtures.settings) Fixtures.box "eng"
    = Ok (strip old_text)
  /\ truthy (strip old_text) = true
  /\ ocr_bbox Fixtures.settings page old_text Fixtures.box "eng" = Ok " abc"
  /\ ocr_bbox Fixtures.settings page old_text Fixtures.box "eng" <> Ok old_text.
Proof.
  cbv zeta. repeat split; try reflexivity.
  vm_compute. discriminate.
Qed.

(** C6: if the OCR engine raises [RuntimeError], or the text it
    recognizes is blank after trimming, [ocr_bbox] returns the original
    text, whatever the text and the bounding box. *)
Theorem C6_fragment_fallback (settings : Settings) (page : Fitz.Page)
    (old_text : string) (bbox : BBox) (lang : string) :
  clip_ocr page (SEGMENT_DPI settings) bbox lang = Raise RuntimeError
  \/ (exists new_text,
        clip_ocr page (SEGMENT_DPI settings) bbox lang = Ok new_text
        /\ strip new_text = EmptyString) ->
  ocr_bbox settings page old_text bbox lang = Ok old_text.
Proof.
  intros [Hfail | (new_text & Hocr & Hblank)]; unfold ocr_bbox.
  - now rewrite Hfail.
  - now rewrite Hocr, Hblank.
Qed.

Lemma C6_fragment_fallback_witness :
  ocr_bbox Fixtures.settings (Fixtures.clip_page (Raise RuntimeError))
    "  a~b " Fixtures.box "eng" = Ok "  a~b "
  /\ ocr_bbox Fixtures.settings (Fixtures.clip_page (Ok "  "))
       "  a~b " Fixtures.box "eng" = Ok "  a~b ".
Proof.
  split; apply C6_fragment_fallback.
  - left. reflexivity.
  - right. exists "  ". split; reflexivity.
Defined.

(** ** [detect_bad_ocr]: the three tests *)

Section DetectBadOcr.

Variable wordpunct_tokenize : string -> list string.
Variable spell_unknown : string -> list string -> list string.




End DetectBadOcr.




(** ** [ocr_entire_page] and the OCR pass of [get_single_page_blocks] *)

Section OcrEntirePage.

Variable settings : Settings.
Variable wordpunct_tokenize : string -> list string.
Variable spell_unknown : string -> list string -> list string.

Lemma ocr_entire_page_fallback (page : Fitz.Page) (lang : string)
    (spell_lang : option string) :
  ocr_attempt_fails settings wordpunct_tokenize spell_unknown
    page lang spell_lang ->
  ocr_entire_page settings wordpunct_tokenize spell_unknown page lang spell_lang
  = Ok [].
Proof.
  intros [Hfail | (blocks & full_text & Hocr & Hbad)]; unfold ocr_entire_page.
  - now rewrite Hfail.
  - rewrite Hocr. cbn [bind]. now rewrite Hbad.
Qed.

Lemma get_single_page_blocks_fallback (page : Fitz.Page) (pnum : Z)
    (lang : string) (spell_lang : option string) :
  ocr_attempt_fails settings wordpunct_tokenize spell_unknown
    page lang spell_lang ->
  get_single_page_blocks settings wordpunct_tokenize spell_unknown
    page pnum lang spell_lang true = Ok [].
Proof.
  intros H. unfold get_single_page_blocks.
  now rewrite (ocr_entire_page_fallback _ _ _ H).
Qed.

End OcrEntirePage.

(** ** The hierarchy builder *)

Lemma bind_ok_inv {A B} (c : result A) (k : A -> result B) (b : B) :
  bind c k = Ok b -> exists a, c = Ok a /\ k a = Ok b.
Proof.
  destruct c as [a | e]; simpl; intros H; [now exists a | discriminate].
Qed.

(** Splits a hypothesis [x <- c ;; k = Ok b] into [c = Ok a] and
    [k a = Ok b]. *)
Ltac bind_inv H :=
  let a := fresh "r" in
  let Ha := fresh "Hr" in
  apply bind_ok_inv in H; destruct H as (a & Ha & H).

Section Hierarchy.

Variable settings : Settings.
Variable page : Fitz.Page.
Variable pnum : Z.
Variable tess_lang : string.

Lemma build_lines_positive ls n lines n' :
  build_lines settings page pnum tess_lang ls n = Ok (lines, n') ->
  Forall line_ok lines.
Proof.
  revert n lines n'.
  induction ls as [| l ls IH]; intros n lines n' H; cbn in H.
  - injection H as <- <-. constructor.
  - bind_inv H. destruct r as [spans n1]. bind_inv H.
    destruct r as [rest n2].
    destruct (Qltb 0 (Line.area (Line.mk spans (LineDict.bbox l)))) eqn:Harea;
      injection H as <- <-.
    + constructor; [now apply Qltb_lt | now apply (IH _ _ _ Hr0)].
    + now apply (IH _ _ _ Hr0).
Qed.

Lemma build_blocks_ok bs n blocks n' :
  build_blocks settings page pnum tess_lang bs n = Ok (blocks, n') ->
  Forall block_ok blocks.
Proof.
  revert n blocks n'.
  induction bs as [| b bs IH]; intros n blocks n' H; cbn in H.
  - injection H as <- <-. constructor.
  - bind_inv H. destruct r as [block_lines n1]. bind_inv H.
    destruct r as [rest n2].
    destruct (0 <? len_list block_lines) eqn:Hlen; injection H as <- <-.
    + constructor; [| now apply (IH _ _ _ Hr0)].
      split; cbn.
      * intros ->. discriminate.
      * now apply (build_lines_positive _ _ _ _ Hr).
    + now apply (IH _ _ _ Hr0).
Qed.

End Hierarchy.

(** C8: on every page [get_single_page_blocks] produces, native or OCR
    pass, each block kept has at least one line and each line kept in it
    has a bounding box of area strictly above 0. *)
Theorem C8_retention_invariant (settings : Settings)
    (tok : string -> list string) (unk : string -> list string -> list string)
    (page : Fitz.Page) (pnum : Z) (tess_lang : string)
    (spell_lang : option string) (ocr : bool) (page_blocks : list Block.t) :
  get_single_page_blocks settings tok unk page pnum tess_lang spell_lang ocr
    = Ok page_blocks ->
  Forall (fun b => Block.lines b <> []
                   /\ Forall (fun l => (0 < Line.area l)%Q) (Block.lines b))
         page_blocks.
Proof.
  unfold get_single_page_blocks. intros H.
  bind_inv H. bind_inv H. destruct r0 as [blocks n']. injection H as <-.
  exact (build_blocks_ok _ _ _ _ _ _ _ _ Hr0).
Qed.

Lemma C8_retention_witness :
  exists page_blocks,
    get_single_page_blocks Fixtures.settings Fixtures.wordpunct_tokenize
      Fixtures.spell_unknown Fixtures.mixed_page 7 "eng" None false
      = Ok page_blocks
    /\ List.length page_blocks = 2%nat
    /\ Forall (fun b => Block.lines b <> []
                        /\ Forall (fun l => (0 < Line.area l)%Q) (Block.lines b))
              page_blocks.
Proof.
  eexists. split; [vm_compute; reflexivity |]. split; [reflexivity |].
  apply (C8_retention_invariant Fixtures.settings Fixtures.wordpunct_tokenize
           Fixtures.spell_unknown Fixtures.mixed_page 7 "eng" None false).
  vm_compute. reflexivity.
Defined.

(** ** Span identifiers *)

Lemma str_of_int_inj (a b : Z) : str_of_int a = str_of_int b -> a = b.
Proof.
  unfold str_of_int. intros H.
  assert (Hnn : forall z, Z.to_int z <> Pos Nil /\ Z.to_int z <> Neg Nil).
  { intros [| p | p]; cbn; split; try discriminate;
      intros [= Hp]; now apply (DecimalPos.Unsigned.to_uint_nonnil p). }
  assert (Hi : Some (Z.to_int a) = Some (Z.to_int b)).
  { rewrite <- (NilZero.isi (Z.to_int a)) by apply Hnn.
    rewrite <- (NilZero.isi (Z.to_int b)) by apply Hnn.
    now rewrite H. }
  injection Hi as Hi.
  rewrite <- (DecimalZ.of_to a), <- (DecimalZ.of_to b). now rewrite Hi.
Qed.

Lemma span_id_of_inj (pnum i j : Z) :
  span_id_of pnum i = span_id_of pnum j -> i = j.
Proof.
  unfold span_id_of. intros H.
  apply append_inv_head in H. cbn in H. injection H as H.
  now apply str_of_int_inj.
Qed.

Lemma NoDup_map_injective {A B} (f : A -> B) (l : list A) :
  (forall x y, f x = f y -> x = y) -> NoDup l -> NoDup (map f l).
Proof.
  intros Hinj Hnd. induction Hnd as [| x l Hx Hnd IH]; cbn; constructor.
  - rewrite in_map_iff. intros (y & Hy & Hin).
    apply Hinj in Hy. now subst y.
  - exact IH.
Qed.

Lemma StronglySorted_lt_app (l1 l2 : list Z) :
  StronglySorted Z.lt l1 -> StronglySorted Z.lt l2 ->
  (forall x y, In x l1 -> In y l2 -> x < y) ->
  StronglySorted Z.lt (l1 ++ l2).
Proof.
  intros H1 H2 Hlt. induction H1 as [| x l1 H1 IH Hx]; cbn; [exact H2 |].
  constructor.
  - apply IH. intros a b Ha Hb. apply Hlt; [now right | exact Hb].
  - apply Forall_app. split; [exact Hx |].
    apply Forall_forall. intros y Hy. apply Hlt; [now left | exact Hy].
Qed.

Lemma StronglySorted_lt_NoDup (l : list Z) :
  StronglySorted Z.lt l -> NoDup l.
Proof.
  induction 1 as [| x l Hs IH Hx]; constructor; [| exact IH].
  intros Hin. rewrite Forall_forall in Hx. specialize (Hx _ Hin). lia.
Qed.

Lemma zrange_bounds (start : Z) (n : nat) :
  Forall (fun i => start <= i < start + Z.of_nat n) (zrange start n).
Proof.
  revert start. induction n as [| n IH]; intros start; cbn [zrange]; constructor.
  - lia.
  - eapply Forall_impl; [| apply IH]. intros i Hi. cbv beta in Hi. lia.
Qed.

Lemma zrange_sorted (start : Z) (n : nat) :
  StronglySorted Z.lt (zrange start n).
Proof.
  revert start. induction n as [| n IH]; intros start; cbn [zrange]; constructor.
  - apply IH.
  - eapply Forall_impl; [| apply zrange_bounds]. intros i Hi. cbv beta in Hi. lia.
Qed.

Lemma span_total_lines_cons (l : LineDict.t) (ls : list LineDict.t) :
  span_total_lines (l :: ls) = len_list (LineDict.spans l) + span_total_lines ls.
Proof. reflexivity. Qed.

Lemma span_total_blocks_cons (b : BlockDict.t) (bs : list BlockDict.t) :
  span_total_blocks (b :: bs)
  = span_total_lines (BlockDict.lines b) + span_total_blocks bs.
Proof. reflexivity. Qed.

Lemma span_total_lines_nonneg (ls : list LineDict.t) : 0 <= span_total_lines ls.
Proof.
  induction ls as [| l ls IH]; [cbn; lia |].
  rewrite span_total_lines_cons. unfold len_list. lia.
Qed.

Lemma span_total_blocks_nonneg (bs : list BlockDict.t) : 0 <= span_total_blocks bs.
Proof.
  induction bs as [| b bs IH]; [cbn; lia |].
  rewrite span_total_blocks_cons.
  pose proof (span_total_lines_nonneg (BlockDict.lines b)). lia.
Qed.

Lemma retained_in_lines_bounds (ls : list LineDict.t) (start : Z) :
  Forall (fun i => start <= i < start + span_total_lines ls)
         (retained_in_lines ls start).
Proof.
  revert start. induction ls as [| l ls IH]; intros start;
    cbn [retained_in_lines]; [constructor |].
  pose proof (span_total_lines_nonneg ls) as Hnn.
  apply Forall_app. split.
  - destruct (Qltb 0 (bbox_area (LineDict.bbox l))); [| constructor].
    eapply Forall_impl; [| apply zrange_bounds].
    intros i Hi. rewrite span_total_lines_cons. unfold len_list. cbv beta in Hi. lia.
  - eapply Forall_impl; [| apply IH].
    intros i Hi. rewrite span_total_lines_cons. unfold len_list in *.
    cbv beta in Hi. lia.
Qed.

Lemma retained_in_lines_sorted (ls : list LineDict.t) (start : Z) :
  StronglySorted Z.lt (retained_in_lines ls start).
Proof.
  revert start. induction ls as [| l ls IH]; intros start;
    cbn [retained_in_lines]; [constructor |].
  apply StronglySorted_lt_app.
  - destruct (Qltb 0 (bbox_area (LineDict.bbox l)));
      [apply zrange_sorted | constructor].
  - apply IH.
  - intros x y Hx Hy.
    pose proof (retained_in_lines_bounds ls (start + len_list (LineDict.spans l))) as Hb.
    rewrite Forall_forall in Hb. specialize (Hb _ Hy).
    destruct (Qltb 0 (bbox_area (LineDict.bbox l))); [| contradiction].
    pose proof (zrange_bounds start (List.length (LineDict.spans l))) as Hz.
    rewrite Forall_forall in Hz. specialize (Hz _ Hx).
    unfold len_list in Hb. cbv beta in Hz, Hb. lia.
Qed.

Lemma retained_in_blocks_bounds (bs : list BlockDict.t) (start : Z) :
  Forall (fun i => start <= i < start + span_total_blocks bs)
         (retained_in_blocks bs start).
Proof.
  revert start. induction bs as [| b bs IH]; intros start;
    cbn [retained_in_blocks]; [constructor |].
  pose proof (span_total_blocks_nonneg bs) as Hnn.
  pose proof (span_total_lines_nonneg (BlockDict.lines b)) as Hnl.
  apply Forall_app. split.
  - eapply Forall_impl; [| apply retained_in_lines_bounds].
    intros i Hi. rewrite span_total_blocks_cons. cbv beta in Hi. lia.
  - eapply Forall_impl; [| apply IH].
    intros i Hi. rewrite span_total_blocks_cons. cbv beta in Hi. lia.
Qed.

Lemma retained_in_blocks_sorted (bs : list BlockDict.t) (start : Z) :
  StronglySorted Z.lt (retained_in_blocks bs start).
Proof.
  revert start. induction bs as [| b bs IH]; intros start;
    cbn [retained_in_blocks]; [constructor |].
  apply StronglySorted_lt_app.
  - apply retained_in_lines_sorted.
  - apply IH.
  - intros x y Hx Hy.
    pose proof (retained_in_blocks_bounds bs
                  (start + span_total_lines (BlockDict.lines b))) as Hb.
    rewrite Forall_forall in Hb. specialize (Hb _ Hy).
    pose proof (retained_in_lines_bounds (BlockDict.lines b) start) as Hl.
    rewrite Forall_forall in Hl. specialize (Hl _ Hx). cbv beta in Hb, Hl. lia.
Qed.

Section SpanIds.

Variable settings : Settings.
Variable page : Fitz.Page.
Variable pnum : Z.
Variable tess_lang : string.

Lemma make_span_id (s : SpanDict.t) (n : Z) (span_obj : Span.t) :
  make_span settings page pnum tess_lang s n = Ok span_obj ->
  Span.span_id span_obj = span_id_of pnum n.
Proof.
  unfold make_span. intros H. bind_inv H. injection H as <-. reflexivity.
Qed.

(** The span loop numbers the spans it builds [n], [n + 1], ... and
    leaves the counter advanced by their number. *)
Lemma build_spans_ids (ss : list SpanDict.t) (n : Z) (spans : list Span.t) (n' : Z) :
  build_spans settings page pnum tess_lang ss n = Ok (spans, n') ->
  map Span.span_id spans = map (span_id_of pnum) (zrange n (List.length ss))
  /\ n' = n + len_list ss.
Proof.
  revert n spans n'.
  induction ss as [| s ss IH]; intros n spans n' H; cbn [build_spans] in H.
  - injection H as <- <-. split; [reflexivity | cbn; lia].
  - bind_inv H. bind_inv H. destruct r0 as [rest n1]. injection H as <- <-.
    destruct (IH _ _ _ Hr0) as [Hids Hn]. split.
    + cbn [map List.length zrange]. now rewrite (make_span_id _ _ _ Hr), Hids.
    + unfold len_list in *. cbn [List.length]. lia.
Qed.

Lemma build_lines_ids (ls : list LineDict.t) (n : Z) (lines : list Line.t) (n' : Z) :
  build_lines settings page pnum tess_lang ls n = Ok (lines, n') ->
  map Span.span_id (flat_map Line.spans lines)
    = map (span_id_of pnum) (retained_in_lines ls n)
  /\ n' = n + span_total_lines ls.
Proof.
  revert n lines n'.
  induction ls as [| l ls IH]; intros n lines n' H; cbn [build_lines] in H.
  - injection H as <- <-. split; [reflexivity | cbn; lia].
  - bind_inv H. destruct r as [spans n1]. bind_inv H. destruct r as [rest n2].
    destruct (build_spans_ids _ _ _ _ Hr) as [Hids Hn1]. subst n1.
    destruct (IH _ _ _ Hr0) as [Hrest Hn2].
    change (Line.area (Line.mk spans (LineDict.bbox l)))
      with (bbox_area (LineDict.bbox l)) in H.
    cbn [retained_in_lines]. rewrite span_total_lines_cons, map_app.
    destruct (Qltb 0 (bbox_area (LineDict.bbox l))); injection H as <- <-.
    + split; [| lia].
      cbn [flat_map Line.spans]. now rewrite map_app, Hids, Hrest.
    + split; [| lia]. exact Hrest.
Qed.

Lemma build_blocks_ids (bs : list BlockDict.t) (n : Z) (blocks : list Block.t) (n' : Z) :
  build_blocks settings page pnum tess_lang bs n = Ok (blocks, n') ->
  map Span.span_id (page_spans blocks)
    = map (span_id_of pnum) (retained_in_blocks bs n)
  /\ n' = n + span_total_blocks bs.
Proof.
  revert n blocks n'.
  induction bs as [| b bs IH]; intros n blocks n' H; cbn [build_blocks] in H.
  - injection H as <- <-. split; [reflexivity | cbn; lia].
  - bind_inv H. destruct r as [block_lines n1]. bind_inv H. destruct r as [rest n2].
    destruct (build_lines_ids _ _ _ _ Hr) as [Hids Hn1]. subst n1.
    destruct (IH _ _ _ Hr0) as [Hrest Hn2].
    cbn [retained_in_blocks]. rewrite span_total_blocks_cons, map_app.
    destruct (0 <? len_list block_lines) eqn:Hlen; injection H as <- <-.
    + split; [| lia].
      unfold page_spans in *. cbn [flat_map Block.lines].
      now rewrite map_app, Hids, Hrest.
    + split; [| lia].
      destruct block_lines as [| x xs]; [| discriminate].
      cbn in Hids. symmetry in Hids. apply map_eq_nil in Hids.
      now rewrite Hids.
Qed.

End SpanIds.

(** C9: the span loop gives the spans it builds on page [pnum] the
    identifiers ["<pnum>_<n>"], ["<pnum>_<n+1>"], ... from the running
    counter [n], so each span's index is its position in the order of
    construction, counted from 0 over all spans of the page, kept or not;
    the identifiers of the spans of the page returned are those of these
    positions that lie in a line of positive area, so their indices
    increase strictly, and they are pairwise distinct. *)
Theorem C9_span_identifiers (settings : Settings)
    (tok : string -> list string) (unk : string -> list string -> list string)
    (page : Fitz.Page) (pnum : Z) (tess_lang : string)
    (spell_lang : option string) (ocr : bool) (page_blocks : list Block.t) :
  get_single_page_blocks settings tok unk page pnum tess_lang spell_lang ocr
    = Ok page_blocks ->
  (forall ss n spans n',
     build_spans settings page pnum tess_lang ss n = Ok (spans, n') ->
     map Span.span_id spans = map (span_id_of pnum) (zrange n (List.length ss))
     /\ n' = n + len_list ss)
  /\ exists raw,
       source_blocks settings tok unk page tess_lang spell_lang ocr = Ok raw
       /\ map Span.span_id (page_spans page_blocks)
          = map (span_id_of pnum) (retained_in_blocks raw 0)
       /\ StronglySorted Z.lt (retained_in_blocks raw 0)
       /\ Forall (fun i => 0 <= i < span_total_blocks raw) (retained_in_blocks raw 0)
       /\ NoDup (map Span.span_id (page_spans page_blocks)).
Proof.
  unfold get_single_page_blocks. intros H.
  split; [intros ss n spans n'; apply build_spans_ids |].
  bind_inv H. bind_inv H. destruct r0 as [blocks n']. injection H as <-.
  exists r. destruct (build_blocks_ids _ _ _ _ _ _ _ _ Hr0) as [Hids _].
  split; [exact Hr |]. split; [exact Hids |].
  split; [apply retained_in_blocks_sorted |].
  split; [apply (retained_in_blocks_bounds r 0) |].
  rewrite Hids. apply NoDup_map_injective.
  - apply span_id_of_inj.
  - apply StronglySorted_lt_NoDup, retained_in_blocks_sorted.
Qed.

Lemma C9_span_identifiers_witness :
  exists page_blocks,
    get_single_page_blocks Fixtures.settings Fixtures.wordpunct_tokenize
      Fixtures.spell_unknown Fixtures.mixed_page 7 "eng" None false
      = Ok page_blocks
    /\ map Span.span_id (page_spans page_blocks) = ["7_0"; "7_3"; "7_4"]
    /\ NoDup (map Span.span_id (page_spans page_blocks)).
Proof.
  eexists. split; [vm_compute; reflexivity |]. split; [reflexivity |].
  destruct (C9_span_identifiers Fixtures.settings Fixtures.wordpunct_tokenize
              Fixtures.spell_unknown Fixtures.mixed_page 7 "eng" None false
              _ eq_refl) as (_ & raw & _ & _ & _ & _ & Hnd).
  exact Hnd.
Defined.

(** ** The page loop of [get_text_blocks] *)


Lemma bind_ret_r {A} (c : result A) : bind c (fun a => Ok a) = c.
Proof. destruct c; reflexivity. Qed.

Lemma firstn_snoc {A} (l : list A) (p : nat) (x : A) :
  nth_error l p = Some x -> firstn (S p) l = (firstn p l ++ [x])%list.
Proof.
  revert l. induction p as [| p IH]; intros [| y l] H; try discriminate.
  - cbn in H. injection H as ->. reflexivity.
  - cbn in H. change (firstn (S (S p)) (y :: l)) with (y :: firstn (S p) l).
    rewrite (IH _ H). reflexivity.
Qed.

Lemma alphanum_ratio_ok (text : string) :
  alphanum_ratio text = Ok (alphanum_ratio_value text).
Proof.
  unfold alphanum_ratio. destruct (Z.eqb_spec (len_str text) 0) as [Hz | Hnz].
  - apply len_str_zero in Hz. subst text. reflexivity.
  - rewrite (truediv_ok _ _ Hnz). destruct text; [now destruct Hnz | reflexivity].
Qed.

(** The two entries of [conditions]: the trigger and the position. *)
Lemma conditions_ok (page_obj : Page.t) (flag : bool) (pnum doc_len : Z) :
  conditions page_obj flag pnum doc_len
  = Ok [ (len_list (Page.get_nonblank_lines page_obj) <? 3) && negb flag
         || Qltb (alphanum_ratio_value (Page.prelim_text page_obj)) 0.6%Q;
         (2 <? pnum) && (pnum <? doc_len - 2) ].
Proof.
  unfold conditions. rewrite alphanum_ratio_ok.
  destruct ((len_list (Page.get_nonblank_lines page_obj) <? 3) && negb flag);
    reflexivity.
Qed.

Section Loop.

Variable settings : Settings.
Variable tok : string -> list string.
Variable unk : string -> list string -> list string.
Variable doc_len : Z.
Variable tess_lang : string.
Variable spell_lang : option string.

Let step := process_page settings tok unk doc_len tess_lang spell_lang.
Let loop := pages_loop settings tok unk doc_len tess_lang spell_lang.
Let native := native_page settings tok unk tess_lang.

(** What one pass of the loop body does to the loop variables. *)
Lemma process_page_inv (pnum : Z) (page : Fitz.Page) (st st' : LoopState) :
  step pnum page st = Ok st' ->
  exists page_obj conds pg,
    native page pnum = Ok page_obj
    /\ conditions page_obj (page_extracted st) pnum doc_len = Ok conds
    /\ all_blocks st' = (all_blocks st ++ [pg])%list
    /\ Page.pnum pg = pnum
    /\ page_extracted st' = negb (all conds)
    /\ (all conds = false -> pg = page_obj)
    /\ (all conds = true ->
        exists blocks,
          get_single_page_blocks settings tok unk page pnum tess_lang spell_lang true
            = Ok blocks
          /\ pg = Page.mk blocks pnum).
Proof.
  unfold step, process_page, native, native_page.
  intros H. bind_inv H. bind_inv H.
  exists (Page.mk r pnum), r0.
  destruct (all r0) eqn:Hall.
  - bind_inv H. bind_inv Hr1. injection Hr1 as <-. injection H as <-.
    exists (Page.mk r2 pnum). rewrite Hr. cbn.
    repeat split; try assumption; try discriminate.
    intros _. now exists r2.
  - bind_inv H. injection Hr1 as <-. injection H as <-.
    exists (Page.mk r pnum). rewrite Hr. cbn.
    repeat split; try assumption; try discriminate.
Qed.

Lemma pages_loop_app (xs ys : list Fitz.Page) (n : Z) (st : LoopState) :
  loop None (xs ++ ys)%list n st
  = bind (loop None xs n st) (fun st1 => loop None ys (n + len_list xs) st1).
Proof.
  unfold loop. revert n st.
  induction xs as [| x xs IH]; intros n st.
  - cbn. now rewrite Z.add_0_r.
  - rewrite <- app_comm_cons. cbn [pages_loop limit_reached].
    destruct (process_page settings tok unk doc_len tess_lang spell_lang n x st)
      as [st1 | e]; cbn [bind]; [| reflexivity].
    rewrite IH.
    replace (n + 1 + len_list xs) with (n + len_list (x :: xs))
      by (unfold len_list; cbn [List.length]; lia).
    reflexivity.
Qed.

End Loop.

Lemma zrange_length (start : Z) (n : nat) : List.length (zrange start n) = n.
Proof.
  revert start. induction n as [| n IH]; intros start; cbn [zrange List.length];
    [reflexivity | now rewrite IH].
Qed.


Lemma all_pair (a b : bool) : all [a; b] = a && b.
Proof. unfold all. cbn. now rewrite andb_true_r. Qed.

Section RunFacts.

Variable settings : Settings.
Variable tok : string -> list string.
Variable unk : string -> list string -> list string.
Variable doc : Document.
Variable tess_lang : string.
Variable spell_lang : option string.

Let doc_len := len_list (pages doc).
Let before := state_before settings tok unk doc tess_lang spell_lang.
Let enters := enters_ocr_retry settings tok unk doc tess_lang spell_lang.
Let step := process_page settings tok unk doc_len tess_lang spell_lang.
Let loop := pages_loop settings tok unk doc_len tess_lang spell_lang.
Let native := native_page settings tok unk tess_lang.

Lemma nth_error_lt (p : nat) (page : Fitz.Page) :
  nth_error (pages doc) p = Some page -> (p < List.length (pages doc))%nat.
Proof. intros H. apply nth_error_Some. now rewrite H. Qed.

Lemma state_before_S (p : nat) (page : Fitz.Page) :
  nth_error (pages doc) p = Some page ->
  before (S p) = bind (before p) (step (Z.of_nat p) page).
Proof.
  intros H. pose proof (nth_error_lt _ _ H) as Hlt.
  unfold before, state_before. rewrite (firstn_snoc _ _ _ H), pages_loop_app.
  fold doc_len.
  destruct (pages_loop settings tok unk doc_len tess_lang spell_lang None
              (firstn p (pages doc)) 0 (mkLoopState [] false)) as [st | e];
    cbn [bind pages_loop limit_reached]; [| reflexivity].
  unfold len_list. rewrite length_firstn, Nat.min_l by lia.
  rewrite Z.add_0_l. apply bind_ret_r.
Qed.

(** The loop without a limit appends one page per page visited,
    numbered from the current page number on. *)
Lemma pages_loop_all_blocks (xs : list Fitz.Page) (n : Z) (st st' : LoopState) :
  loop None xs n st = Ok st' ->
  exists new,
    all_blocks st' = (all_blocks st ++ new)%list
    /\ map Page.pnum new = zrange n (List.length xs).
Proof.
  unfold loop. revert n st.
  induction xs as [| x xs IH]; intros n st H; cbn [pages_loop limit_reached] in H.
  - injection H as <-. exists []. now rewrite app_nil_r.
  - bind_inv H.
    destruct (process_page_inv _ _ _ _ _ _ _ _ _ _ Hr)
      as (page_obj & conds & pg & _ & _ & Hall & Hpn & _).
    destruct (IH _ _ H) as (new & Hnew & Hmap).
    exists (pg :: new). split.
    + rewrite Hnew, Hall, <- app_assoc. reflexivity.
    + cbn [map List.length zrange]. now rewrite Hpn, Hmap.
Qed.

Lemma state_before_pages (p : nat) (st : LoopState) :
  (p <= List.length (pages doc))%nat ->
  before p = Ok st ->
  map Page.pnum (all_blocks st) = zrange 0 p /\ List.length (all_blocks st) = p.
Proof.
  intros Hp H. unfold before, state_before in H.
  destruct (pages_loop_all_blocks _ _ _ _ H) as (new & Hnew & Hmap).
  simpl in Hnew. rewrite <- Hnew in Hmap.
  rewrite length_firstn, Nat.min_l in Hmap by exact Hp.
  split; [exact Hmap |].
  rewrite <- (length_map Page.pnum), Hmap. apply zrange_length.
Qed.

(** A later state of the run extends an earlier one. *)
Lemma state_before_prefix (a b : nat) (stb : LoopState) :
  (a <= b)%nat ->
  before b = Ok stb ->
  exists sta new,
    before a = Ok sta /\ all_blocks stb = (all_blocks sta ++ new)%list.
Proof.
  intros Hab H. unfold before, state_before in *.
  rewrite <- (firstn_skipn a (firstn b (pages doc))) in H.
  rewrite firstn_firstn, Nat.min_l in H by exact Hab.
  rewrite pages_loop_app in H. bind_inv H.
  destruct (pages_loop_all_blocks _ _ _ _ H) as (new & Hnew & _).
  now exists r, new.
Qed.

(** The flag a page consults: [False] at the first page, afterwards the
    negation of [all(conditions)] at the page just before. *)
Lemma flag_before_spec (p : nat) (st : LoopState) :
  (p <= List.length (pages doc))%nat ->
  before p = Ok st ->
  match p with
  | O => page_extracted st = false
  | S q => exists b, enters q = Ok b /\ page_extracted st = negb b
  end.
Proof.
  intros Hp H. destruct p as [| q].
  - unfold before, state_before in H. cbn in H. now injection H as <-.
  - destruct (nth_error (pages doc) q) as [page |] eqn:Hnth.
    2:{ apply nth_error_None in Hnth. lia. }
    rewrite (state_before_S _ _ Hnth) in H. bind_inv H.
    destruct (process_page_inv _ _ _ _ _ _ _ _ _ _ H)
      as (page_obj & conds & pg & Hnat & Hconds & _ & _ & Hflag & _).
    exists (all conds). split; [| exact Hflag].
    unfold enters, enters_ocr_retry. rewrite Hnth.
    unfold before in Hr. rewrite Hr. cbn [bind].
    rewrite Hnat. cbn [bind]. fold doc_len. rewrite Hconds. reflexivity.
Qed.

(** Whether a page enters ocr-retry, from the flag and its native
    page object. *)
Lemma enters_ocr_retry_spec (p : nat) (page : Fitz.Page) (st : LoopState)
    (page_obj : Page.t) :
  nth_error (pages doc) p = Some page ->
  before p = Ok st ->
  native page (Z.of_nat p) = Ok page_obj ->
  enters p
  = Ok (((len_list (Page.get_nonblank_lines page_obj) <? 3)
         && negb (page_extracted st)
         || Qltb (alphanum_ratio_value (Page.prelim_text page_obj)) 0.6%Q)
        && ((2 <? Z.of_nat p) && (Z.of_nat p <? doc_len - 2))).
Proof.
  intros Hnth Hst Hnat. unfold enters, enters_ocr_retry. rewrite Hnth.
  unfold before in Hst. rewrite Hst. cbn [bind].
  unfold native in Hnat. rewrite Hnat. cbn [bind].
  rewrite conditions_ok. cbn [bind]. now rewrite all_pair.
Qed.

(** One pass of the loop body on a page that enters ocr-retry. *)
Lemma process_page_ocr (p : nat) (page : Fitz.Page) (st : LoopState)
    (blocks : list Block.t) :
  nth_error (pages doc) p = Some page ->
  before p = Ok st ->
  enters p = Ok true ->
  get_single_page_blocks settings tok unk page (Z.of_nat p) tess_lang spell_lang true
    = Ok blocks ->
  step (Z.of_nat p) page st
  = Ok (mkLoopState (all_blocks st ++ [Page.mk blocks (Z.of_nat p)])%list false).
Proof.
  intros Hnth Hst Hent Hocr. unfold enters, enters_ocr_retry in Hent.
  rewrite Hnth in Hent. unfold before in Hst. rewrite Hst in Hent.
  cbn [bind] in Hent. bind_inv Hent. bind_inv Hent. injection Hent as Hall.
  unfold native_page in Hr. bind_inv Hr. injection Hr as <-.
  unfold step, process_page. rewrite Hr1. cbn [bind].
  fold doc_len in Hr0. rewrite Hr0. cbn [bind]. rewrite Hall, Hocr. reflexivity.
Qed.

End RunFacts.

(** ** What a pass of the loop does with a page *)

Lemma retry_condition_bool (page_obj : Page.t) (flag : bool) (pnum doc_len : Z) :
  ((len_list (Page.get_nonblank_lines page_obj) <? 3) && negb flag
   || Qltb (alphanum_ratio_value (Page.prelim_text page_obj)) 0.6%Q)
  && ((2 <? pnum) && (pnum <? doc_len - 2)) = true
  <-> retry_condition page_obj flag pnum doc_len.
Proof.
  unfold retry_condition, middle_page.
  rewrite !andb_true_iff, orb_true_iff, andb_true_iff, negb_true_iff,
    Qltb_lt, !Z.ltb_lt.
  tauto.
Qed.

(** The loop body on a page whose native pass returned: under the
    retry condition it runs the OCR pass, appends the page object built
    from its blocks and clears the flag, or raises what that pass
    raises; otherwise it appends the native page object and sets the
    flag. *)
Lemma process_page_step (settings : Settings)
    (tok : string -> list string) (unk : string -> list string -> list string)
    (doc_len : Z) (tess_lang : string) (spell_lang : option string)
    (pnum : Z) (page : Fitz.Page) (st : LoopState) (page_obj : Page.t) :
  native_page settings tok unk tess_lang page pnum = Ok page_obj ->
  process_page settings tok unk doc_len tess_lang spell_lang pnum page st
  = if ((len_list (Page.get_nonblank_lines page_obj) <? 3)
        && negb (page_extracted st)
        || Qltb (alphanum_ratio_value (Page.prelim_text page_obj)) 0.6%Q)
       && ((2 <? pnum) && (pnum <? doc_len - 2))
    then
      bind (get_single_page_blocks settings tok unk page pnum tess_lang
              spell_lang true)
        (fun blocks =>
           Ok (mkLoopState (all_blocks st ++ [Page.mk blocks pnum])%list false))
    else Ok (mkLoopState (all_blocks st ++ [page_obj])%list true).
Proof.
  unfold native_page. intros H. bind_inv H. injection H as <-.
  unfold process_page. rewrite Hr. cbn [bind].
  rewrite conditions_ok. cbn [bind]. rewrite all_pair.
  destruct (_ && _); [| reflexivity].
  destruct (get_single_page_blocks settings tok unk page pnum tess_lang
              spell_lang true); reflexivity.
Qed.

Section RunOutcome.

Variable settings : Settings.
Variable tok : string -> list string.
Variable unk : string -> list string -> list string.
Variable doc : Document.
Variable tess_lang : string.
Variable spell_lang : option string.

Let doc_len := len_list (pages doc).
Let before := state_before settings tok unk doc tess_lang spell_lang.
Let enters := enters_ocr_retry settings tok unk doc tess_lang spell_lang.
Let kept := kept_native settings tok unk doc tess_lang spell_lang.
Let reprocessed := reprocessed_with_ocr settings tok unk doc tess_lang spell_lang.
Let ocr_pass (page : Fitz.Page) (p : nat) :=
  get_single_page_blocks settings tok unk page (Z.of_nat p) tess_lang
    spell_lang true.

(** The state after a page whose native pass returned, from the state
    before it. *)
Lemma state_after_page (p : nat) (page : Fitz.Page) (st : LoopState)
    (page_obj : Page.t) :
  nth_error (pages doc) p = Some page ->
  before p = Ok st ->
  native_page settings tok unk tess_lang page (Z.of_nat p) = Ok page_obj ->
  exists b,
    enters p = Ok b
    /\ (b = true <-> retry_condition page_obj (page_extracted st) (Z.of_nat p) doc_len)
    /\ before (S p)
       = if b
         then bind (ocr_pass page p)
                (fun blocks =>
                   Ok (mkLoopState
                         (all_blocks st ++ [Page.mk blocks (Z.of_nat p)])%list
                         false))
         else Ok (mkLoopState (all_blocks st ++ [page_obj])%list true).
Proof.
  intros Hnth Hst Hnat.
  pose proof (enters_ocr_retry_spec _ _ _ _ _ _ _ _ _ _ Hnth Hst Hnat) as Hent.
  eexists. split; [exact Hent |]. split; [apply retry_condition_bool |].
  unfold before. rewrite (state_before_S _ _ _ _ _ _ _ _ Hnth).
  unfold before in Hst. rewrite Hst. cbn [bind].
  apply (process_page_step _ _ _ _ _ _ _ _ _ _ Hnat).
Qed.

(** Every page the loop has passed either kept its native extraction,
    and the flag is then set, or was re-processed with full-page OCR,
    and the flag is then cleared. *)
Lemma step_outcome (q : nat) (st' : LoopState) :
  (q < List.length (pages doc))%nat ->
  before (S q) = Ok st' ->
  (kept q /\ page_extracted st' = true)
  \/ (reprocessed q /\ page_extracted st' = false).
Proof.
  intros Hq Hnext.
  destruct (nth_error (pages doc) q) as [page |] eqn:Hnth.
  2:{ apply nth_error_None in Hnth. lia. }
  pose proof Hnext as Hstep. unfold before in Hstep.
  rewrite (state_before_S _ _ _ _ _ _ _ _ Hnth) in Hstep. bind_inv Hstep.
  destruct (process_page_inv _ _ _ _ _ _ _ _ _ _ Hstep)
    as (page_obj & conds & pg & Hnat & _).
  destruct (state_after_page _ _ _ _ Hnth Hr Hnat) as (b & Hent & _ & Hafter).
  rewrite Hnext in Hafter. destruct b.
  - right. symmetry in Hafter. bind_inv Hafter. injection Hafter as <-.
    split; [| reflexivity].
    exists page, r, r0. repeat split; assumption.
  - left. injection Hafter as ->. split; [| reflexivity].
    exists page, r, page_obj. repeat split; assumption.
Qed.

Lemma kept_flag (q : nat) (st' : LoopState) :
  kept q -> before (S q) = Ok st' -> page_extracted st' = true.
Proof.
  intros (page & st & page_obj & _ & _ & _ & _ & Hnext) H.
  unfold before in H. rewrite Hnext in H. now injection H as <-.
Qed.

Lemma reprocessed_flag (q : nat) (st' : LoopState) :
  reprocessed q -> before (S q) = Ok st' -> page_extracted st' = false.
Proof.
  intros (page & st & blocks & _ & _ & _ & _ & Hnext) H.
  unfold before in H. rewrite Hnext in H. now injection H as <-.
Qed.

(** The flag a page consults, from what the loop did with the page just
    before. *)
Lemma flag_outcome (p : nat) (st : LoopState) :
  (p <= List.length (pages doc))%nat ->
  before p = Ok st ->
  (page_extracted st = true <-> exists q, p = S q /\ kept q)
  /\ (page_extracted st = false <-> p = 0%nat \/ exists q, p = S q /\ reprocessed q).
Proof.
  intros Hp Hst. destruct p as [| q].
  - assert (Hflag : page_extracted st = false).
    { unfold before, state_before in Hst. cbn in Hst. now injection Hst as <-. }
    rewrite Hflag. split; split; try discriminate; auto.
    intros (q & [=] & _).
  - assert (Hq : (q < List.length (pages doc))%nat) by lia.
    destruct (step_outcome q st Hq Hst) as [[Hk Hflag] | [Hre Hflag]];
      rewrite Hflag.
    + split; split.
      * intros _. now exists q.
      * reflexivity.
      * discriminate.
      * intros [[=] | (q' & [= <-] & Hre)].
        pose proof (reprocessed_flag _ _ Hre Hst) as Hf. congruence.
    + split; split.
      * discriminate.
      * intros (q' & [= <-] & Hk).
        pose proof (kept_flag _ _ Hk Hst) as Hf. congruence.
      * intros _. right. now exists q.
      * reflexivity.
Qed.

End RunOutcome.

(** C2 (as the code has it): the flag the trigger of page [p] consults
    is true if and only if [p] is not the first page and the page just
    before it kept its native extraction: the loop appended its native
    page object and did not send it to full-page OCR.  It is false if and
    only if [p] is the first page or the page just before it was
    re-processed with full-page OCR: a page that is re-processed clears
    the flag, whatever the pages before it did. *)
Theorem C2_flag_tracks_previous_page (settings : Settings)
    (tok : string -> list string) (unk : string -> list string -> list string)
    (doc : Document) (tess_lang : string) (spell_lang : option string)
    (p : nat) (st : LoopState) :
  (p <= List.length (pages doc))%nat ->
  state_before settings tok unk doc tess_lang spell_lang p = Ok st ->
  (page_extracted st = true
   <-> exists q, p = S q
         /\ kept_native settings tok unk doc tess_lang spell_lang q)
  /\ (page_extracted st = false
      <-> p = 0%nat
          \/ exists q, p = S q
               /\ reprocessed_with_ocr settings tok unk doc tess_lang spell_lang q)
  /\ (page_extracted st = true
      <-> exists q, p = S q
            /\ enters_ocr_retry settings tok unk doc tess_lang spell_lang q
               = Ok false)
  /\ (forall q, p = S q ->
        enters_ocr_retry settings tok unk doc tess_lang spell_lang q = Ok true ->
        page_extracted st = false).
Proof.
  intros Hp Hst.
  destruct (flag_outcome _ _ _ _ _ _ _ _ Hp Hst) as [Htrue Hfalse].
  split; [exact Htrue |]. split; [exact Hfalse |].
  pose proof (flag_before_spec _ _ _ _ _ _ _ _ Hp Hst) as Hflag.
  destruct p as [| q].
  - split; [| intros q [=]]. split.
    + rewrite Hflag. discriminate.
    + intros (q & [=] & _).
  - destruct Hflag as (b & Hb & Hflag). split; [split |].
    + intros Ht. exists q. split; [reflexivity |].
      rewrite Hb. rewrite Hflag in Ht. now destruct b.
    + intros (q' & [= <-] & Hq). rewrite Hb in Hq. injection Hq as ->.
      now rewrite Hflag.
    + intros q' [= <-] Hq. rewrite Hb in Hq. injection Hq as ->.
      now rewrite Hflag.
Qed.

Lemma C2_flag_witness :
  exists st,
    state_before Fixtures.settings Fixtures.wordpunct_tokenize
      Fixtures.spell_unknown Fixtures.doc_reset "eng" (Some "en") 4 = Ok st
    /\ page_extracted st = false
    /\ reprocessed_with_ocr Fixtures.settings Fixtures.wordpunct_tokenize
         Fixtures.spell_unknown Fixtures.doc_reset "eng" (Some "en") 3.
Proof.
  eexists. split; [vm_compute; reflexivity |]. split; [reflexivity |].
  destruct (C2_flag_tracks_previous_page Fixtures.settings
              Fixtures.wordpunct_tokenize Fixtures.spell_unknown
              Fixtures.doc_reset "eng" (Some "en") 4 _
              ltac:(cbn; lia) eq_refl) as (_ & Hfalse & _).
  destruct Hfalse as [Hfalse _].
  destruct (Hfalse eq_refl) as [[=] | (q & [= <-] & Hq)]. exact Hq.
Defined.

(** Closes a fact about a concrete run by evaluation. *)
Ltac run_fact := first [reflexivity | vm_compute; reflexivity].

(** Proves [kept_native] or [reprocessed_with_ocr] of a page of a
    concrete document by evaluating the run. *)
Ltac run_outcome page :=
  exists page; eexists; eexists;
  split; [run_fact |]; split; [run_fact |]; split; [run_fact |];
  split; run_fact.

(** C2 as stated fails: in the seven-page document [doc_reset] pages 0,
    1 and 2 keep their native extraction, page 3 is re-processed with
    full-page OCR (the OCR attempt fails and the page is stored without
    blocks), and the flag page 4 consults is false although three earlier
    pages were extracted natively: the flag at page 3 is true, at page 4
    it is false again. *)
Lemma C2_flag_reset_by_ocr_retry :
  let before := state_before Fixtures.settings Fixtures.wordpunct_tokenize
                  Fixtures.spell_unknown Fixtures.doc_reset "eng" (Some "en") in
  let kept := kept_native Fixtures.settings Fixtures.wordpunct_tokenize
                Fixtures.spell_unknown Fixtures.doc_reset "eng" (Some "en") in
  let prior := prior_native_success Fixtures.settings Fixtures.wordpunct_tokenize
                 Fixtures.spell_unknown Fixtures.doc_reset "eng" (Some "en") in
  kept 0%nat /\ kept 1%nat /\ kept 2%nat
  /\ reprocessed_with_ocr Fixtures.settings Fixtures.wordpunct_tokenize
       Fixtures.spell_unknown Fixtures.doc_reset "eng" (Some "en") 3
  /\ prior 4%nat
  /\ (exists st3, before 3%nat = Ok st3 /\ page_extracted st3 = true)
  /\ (exists st4,
        before 4%nat = Ok st4 /\ page_extracted st4 = false
        /\ nth_error (all_blocks st4) 3 = Some (Page.mk [] 3))
  /\ ~ (forall p st,
          before p = Ok st -> (page_extracted st = true <-> prior p)).
Proof.
  cbv zeta.
  assert (H0 : kept_native Fixtures.settings Fixtures.wordpunct_tokenize
                 Fixtures.spell_unknown Fixtures.doc_reset "eng" (Some "en") 0)
    by (unfold kept_native; run_outcome Fixtures.good_page).
  assert (Hprior : prior_native_success Fixtures.settings
                     Fixtures.wordpunct_tokenize Fixtures.spell_unknown
                     Fixtures.doc_reset "eng" (Some "en") 4)
    by (exists 0%nat; split; [lia | exact H0]).
  assert (Hst4 : exists st4,
             state_before Fixtures.settings Fixtures.wordpunct_tokenize
               Fixtures.spell_unknown Fixtures.doc_reset "eng" (Some "en") 4
             = Ok st4 /\ page_extracted st4 = false
             /\ nth_error (all_blocks st4) 3 = Some (Page.mk [] 3))
    by (eexists; split; [run_fact | split; reflexivity]).
  split; [exact H0 |].
  split; [unfold kept_native; run_outcome Fixtures.good_page |].
  split; [unfold kept_native; run_outcome Fixtures.good_page |].
  split; [unfold reprocessed_with_ocr;
          run_outcome (Fixtures.garbled_page (Raise RuntimeError)) |].
  split; [exact Hprior |].
  split; [eexists; split; [run_fact | reflexivity] |].
  split; [exact Hst4 |].
  intros Hall. destruct Hst4 as (st4 & Hbefore & Hflag & _).
  apply (Hall _ _ Hbefore) in Hprior. rewrite Hflag in Hprior. discriminate.
Qed.

(** C3 (as the code has it): page [p] is re-processed with full-page
    OCR if and only if the trigger and the position condition both hold
    (and the OCR pass returns); otherwise its native extraction is kept.
    The trigger: fewer than 3 non-blank lines and a false flag, or an
    alphanumeric ratio of the preliminary text below 0.6, the empty text
    having ratio 1.  The flag is false exactly at the first page and
    after a page that was re-processed with full-page OCR.  The
    position: [2 < p < len(doc) - 2].  Under the condition the loop runs
    the OCR pass on the page and stores the page object built from it,
    or raises what that pass raises; without it the loop stores the
    native page object.  In a document of 10 pages, pages 0-2 and 8-9
    keep their native extraction and pages 3-7 are sent to the OCR pass
    when their ratio is below 0.6. *)
Theorem C3_ocr_retry_condition (settings : Settings)
    (tok : string -> list string) (unk : string -> list string -> list string)
    (doc : Document) (tess_lang : string) (spell_lang : option string)
    (p : nat) (page : Fitz.Page) (st : LoopState) (page_obj : Page.t) :
  nth_error (pages doc) p = Some page ->
  state_before settings tok unk doc tess_lang spell_lang p = Ok st ->
  native_page settings tok unk tess_lang page (Z.of_nat p) = Ok page_obj ->
  alphanum_ratio (Page.prelim_text page_obj)
    = Ok (alphanum_ratio_value (Page.prelim_text page_obj))
  /\ (Page.prelim_text page_obj = EmptyString ->
      alphanum_ratio_value (Page.prelim_text page_obj) = 1%Q)
  /\ (exists b,
        enters_ocr_retry settings tok unk doc tess_lang spell_lang p = Ok b
        /\ (b = true
            <-> retry_condition page_obj (page_extracted st) (Z.of_nat p)
                  (len_list (pages doc))))
  /\ (retry_condition page_obj (page_extracted st) (Z.of_nat p)
        (len_list (pages doc)) ->
      state_before settings tok unk doc tess_lang spell_lang (S p)
      = bind (get_single_page_blocks settings tok unk page (Z.of_nat p)
                tess_lang spell_lang true)
          (fun blocks =>
             Ok (mkLoopState
                   (all_blocks st ++ [Page.mk blocks (Z.of_nat p)])%list false)))
  /\ (~ retry_condition page_obj (page_extracted st) (Z.of_nat p)
          (len_list (pages doc)) ->
      state_before settings tok unk doc tess_lang spell_lang (S p)
      = Ok (mkLoopState (all_blocks st ++ [page_obj])%list true))
  /\ (reprocessed_with_ocr settings tok unk doc tess_lang spell_lang p
      <-> retry_condition page_obj (page_extracted st) (Z.of_nat p)
            (len_list (pages doc))
          /\ exists blocks,
               get_single_page_blocks settings tok unk page (Z.of_nat p)
                 tess_lang spell_lang true = Ok blocks)
  /\ (kept_native settings tok unk doc tess_lang spell_lang p
      <-> ~ retry_condition page_obj (page_extracted st) (Z.of_nat p)
              (len_list (pages doc)))
  /\ (page_extracted st = false
      <-> p = 0%nat
          \/ exists q, p = S q
               /\ reprocessed_with_ocr settings tok unk doc tess_lang spell_lang q)
  /\ (List.length (pages doc) = 10%nat ->
      (((p <= 2)%nat \/ (8 <= p)%nat ->
        kept_native settings tok unk doc tess_lang spell_lang p)
       /\ ((3 <= p <= 7)%nat ->
           (alphanum_ratio_value (Page.prelim_text page_obj) < 0.6)%Q ->
           retry_condition page_obj (page_extracted st) (Z.of_nat p)
             (len_list (pages doc))))).
Proof.
  intros Hnth Hst Hnat.
  pose proof (nth_error_lt _ _ _ Hnth) as Hlt.
  destruct (state_after_page _ _ _ _ _ _ _ _ _ _ Hnth Hst Hnat)
    as (b & Hent & Hb & Hafter).
  assert (Hkept : ~ retry_condition page_obj (page_extracted st) (Z.of_nat p)
                      (len_list (pages doc)) ->
                  kept_native settings tok unk doc tess_lang spell_lang p).
  { intros Hno. destruct b; [now destruct Hno; apply Hb |].
    exists page, st, page_obj. repeat split; assumption. }
  split; [apply alphanum_ratio_ok |].
  split; [intros ->; reflexivity |].
  split; [now exists b |].
  split; [intros Hc; apply Hb in Hc; subst b; exact Hafter |].
  split.
  { intros Hno. destruct b; [now destruct Hno; apply Hb | exact Hafter]. }
  split.
  { split.
    - intros (page' & st' & blocks & Hnth' & _ & Hent' & Hocr & _).
      rewrite Hnth in Hnth'. injection Hnth' as <-.
      rewrite Hent in Hent'. injection Hent' as ->.
      split; [now apply Hb | now exists blocks].
    - intros [Hc (blocks & Hocr)]. apply Hb in Hc. subst b.
      rewrite Hocr in Hafter. cbn [bind] in Hafter.
      exists page, st, blocks. repeat split; assumption. }
  split.
  { split; [| exact Hkept].
    intros (page' & st' & obj & _ & _ & _ & Hent' & _) Hc.
    apply Hb in Hc. subst b. rewrite Hent in Hent'. discriminate. }
  split.
  { assert (Hle : (p <= List.length (pages doc))%nat) by lia.
    exact (proj2 (flag_outcome _ _ _ _ _ _ _ _ Hle Hst)). }
  intros Hten. unfold retry_condition, middle_page, len_list. rewrite Hten.
  split.
  - intros Hpos. apply Hkept. unfold retry_condition, middle_page, len_list.
    rewrite Hten. lia.
  - intros Hpos Hratio. split; [now right | lia].
Qed.

Lemma C3_ocr_retry_witness :
  (exists st6,
     state_before Fixtures.settings Fixtures.wordpunct_tokenize
       Fixtures.spell_unknown Fixtures.doc_ten "eng" (Some "en") 6 = Ok st6
     /\ nth_error (all_blocks st6) 5 = Some (Page.mk [] 5))
  /\ kept_native Fixtures.settings Fixtures.wordpunct_tokenize
       Fixtures.spell_unknown Fixtures.doc_ten "eng" (Some "en") 8.
Proof.
  split.
  - destruct (C3_ocr_retry_condition Fixtures.settings
                Fixtures.wordpunct_tokenize Fixtures.spell_unknown
                Fixtures.doc_ten "eng" (Some "en") 5 _ _ _
                eq_refl eq_refl eq_refl) as (_ & _ & _ & Hrun & _ & _ & _ & _ & Hten).
    destruct (Hten eq_refl) as [_ Hmid].
    assert (Hc := Hmid ltac:(lia) ltac:(vm_compute; reflexivity)).
    specialize (Hrun Hc).
    eexists. split; [rewrite Hrun; vm_compute; reflexivity | reflexivity].
  - destruct (C3_ocr_retry_condition Fixtures.settings
                Fixtures.wordpunct_tokenize Fixtures.spell_unknown
                Fixtures.doc_ten "eng" (Some "en") 8 _ _ _
                eq_refl eq_refl eq_refl) as (_ & _ & _ & _ & _ & _ & _ & _ & Hten).
    destruct (Hten eq_refl) as [Hedge _]. apply Hedge. right. lia.
Defined.

(** C3 as stated fails: in [doc_reset] page 4 has one non-blank line and
    alphanumeric ratio 1, pages 0-2 kept their native extraction before
    it, and it sits in the middle of the document; by the claim's
    trigger it would stay native, and it is re-processed with full-page
    OCR, because page 3 was: the page object stored for it is the one
    built from the OCR blocks. *)
Lemma C3_sparse_page_after_ocr_retry :
  let before := state_before Fixtures.settings Fixtures.wordpunct_tokenize
                  Fixtures.spell_unknown Fixtures.doc_reset "eng" (Some "en") in
  let reprocessed :=
    reprocessed_with_ocr Fixtures.settings Fixtures.wordpunct_tokenize
      Fixtures.spell_unknown Fixtures.doc_reset "eng" (Some "en") in
  let prior := prior_native_success Fixtures.settings Fixtures.wordpunct_tokenize
                 Fixtures.spell_unknown Fixtures.doc_reset "eng" (Some "en") in
  exists page_obj,
    nth_error (pages Fixtures.doc_reset) 4 = Some Fixtures.sparse_page
    /\ native_page Fixtures.settings Fixtures.wordpunct_tokenize
         Fixtures.spell_unknown "eng" Fixtures.sparse_page 4 = Ok page_obj
    /\ Page.prelim_text page_obj = "alpha"
    /\ len_list (Page.get_nonblank_lines page_obj) = 1
    /\ (alphanum_ratio_value (Page.prelim_text page_obj) == 1)%Q
    /\ prior 4%nat
    /\ middle_page 4 (len_list (pages Fixtures.doc_reset))
    /\ reprocessed 4%nat
    /\ (exists st5 ocr_obj,
          before 5%nat = Ok st5
          /\ nth_error (all_blocks st5) 4 = Some ocr_obj
          /\ Page.prelim_text ocr_obj = "alpha omega")
    /\ ~ (reprocessed 4%nat
          <-> ((len_list (Page.get_nonblank_lines page_obj) < 3 /\ ~ prior 4%nat)
               \/ (alphanum_ratio_value (Page.prelim_text page_obj) < 0.6)%Q)
              /\ middle_page 4 (len_list (pages Fixtures.doc_reset))).
Proof.
  cbv zeta.
  assert (Hprior : prior_native_success Fixtures.settings
                     Fixtures.wordpunct_tokenize Fixtures.spell_unknown
                     Fixtures.doc_reset "eng" (Some "en") 4).
  { exists 0%nat. split; [lia |].
    unfold kept_native. run_outcome Fixtures.good_page. }
  assert (Hre : reprocessed_with_ocr Fixtures.settings
                  Fixtures.wordpunct_tokenize Fixtures.spell_unknown
                  Fixtures.doc_reset "eng" (Some "en") 4)
    by (unfold reprocessed_with_ocr; run_outcome Fixtures.sparse_page).
  eexists. split; [reflexivity |]. split; [run_fact |].
  split; [reflexivity |]. split; [reflexivity |]. split; [run_fact |].
  split; [exact Hprior |].
  split; [unfold middle_page; cbn; lia |]. split; [exact Hre |].
  split; [eexists; eexists; split; [run_fact | split; reflexivity] |].
  intros [Hclaim _]. destruct (Hclaim Hre) as [[[_ Hno] | Hlt] _].
  - exact (Hno Hprior).
  - vm_compute in Hlt. discriminate.
Qed.

(** ** The page limit *)

Section Limit.

Variable settings : Settings.
Variable tok : string -> list string.
Variable unk : string -> list string -> list string.
Variable tess_lang : string.
Variable spell_lang : option string.

(** With a page limit the loop does what the loop without a limit does
    on the pages it still visits. *)
Lemma pages_loop_limit (doc_len : Z) (max_pages : option Z)
    (rest : list Fitz.Page) (n : Z) (st : LoopState) :
  pages_loop settings tok unk doc_len tess_lang spell_lang max_pages rest n st
  = pages_loop settings tok unk doc_len tess_lang spell_lang None
      (firstn (pages_left max_pages n (List.length rest)) rest) n st.
Proof.
  destruct max_pages as [m |]; cbn [pages_left]; [| now rewrite firstn_all].
  destruct (Z.eqb_spec m 0) as [Hz | Hnz].
  - subst m. rewrite firstn_all. revert n st.
    induction rest as [| x rest IH]; intros n st; [reflexivity |].
    cbn [pages_loop limit_reached int_truthy Z.eqb negb andb].
    destruct (process_page settings tok unk doc_len tess_lang spell_lang n x st)
      as [st1 | e]; cbn [bind]; [apply IH | reflexivity].
  - revert n st. induction rest as [| x rest IH]; intros n st.
    + now rewrite firstn_nil.
    + cbn [pages_loop limit_reached List.length]. unfold int_truthy.
      destruct (Z.eqb_spec m 0) as [Hz | _]; [contradiction |].
      cbn [negb andb].
      destruct (Z.leb_spec m n) as [Hle | Hgt].
      * replace (Z.to_nat (m - n)) with 0%nat by lia. reflexivity.
      * replace (Z.to_nat (m - n)) with (S (Z.to_nat (m - (n + 1)))) by lia.
        cbn [Nat.min firstn pages_loop limit_reached].
        destruct (process_page settings tok unk doc_len tess_lang spell_lang n x st)
          as [st1 | e]; cbn [bind]; [apply IH | reflexivity].
Qed.

Lemma page_limit_pages_left (max_pages : option Z) (n : nat) :
  page_limit max_pages n = pages_left max_pages 0 n.
Proof.
  unfold page_limit, pages_left. destruct max_pages as [m |]; [| reflexivity].
  now rewrite Z.sub_0_r.
Qed.

(** [get_text_blocks] returns the pages accumulated when the run without
    a limit reaches the page of index [page_limit], and the document's
    table of contents. *)
Lemma get_text_blocks_limit (doc : Document) (max_pages : option Z) :
  get_text_blocks settings tok unk doc tess_lang spell_lang max_pages
  = bind (state_before settings tok unk doc tess_lang spell_lang
            (page_limit max_pages (List.length (pages doc))))
         (fun st => Ok (all_blocks st, get_toc doc)).
Proof.
  unfold get_text_blocks, state_before.
  now rewrite pages_loop_limit, page_limit_pages_left.
Qed.

Lemma page_limit_le (max_pages : option Z) (n : nat) :
  (page_limit max_pages n <= n)%nat.
Proof.
  unfold page_limit. destruct max_pages as [m |]; [| lia].
  destruct (m =? 0); lia.
Qed.

End Limit.

(** C5: if the full-page OCR attempt on a page raises [RuntimeError],
    or the quality gate rejects the text the engine recognized, then
    [ocr_entire_page] returns the empty list and the OCR pass of
    [get_single_page_blocks] returns the empty list; and wherever that
    page enters ocr-retry in a document, the loop passes it without
    raising, appending a page object with no blocks, which is what
    [get_text_blocks] returns at its index. *)
Theorem C5_full_page_ocr_fallback (settings : Settings)
    (tok : string -> list string) (unk : string -> list string -> list string)
    (tess_lang : string) (spell_lang : option string) (page : Fitz.Page) :
  ocr_attempt_fails settings tok unk page tess_lang spell_lang ->
  ocr_entire_page settings tok unk page tess_lang spell_lang = Ok []
  /\ (forall pnum,
        get_single_page_blocks settings tok unk page pnum tess_lang
          spell_lang true = Ok [])
  /\ (forall (doc : Document) (max_pages : option Z) (p : nat),
        nth_error (pages doc) p = Some page ->
        (p < page_limit max_pages (List.length (pages doc)))%nat ->
        enters_ocr_retry settings tok unk doc tess_lang spell_lang p = Ok true ->
        (exists st,
           state_before settings tok unk doc tess_lang spell_lang p = Ok st
           /\ state_before settings tok unk doc tess_lang spell_lang (S p)
              = Ok (mkLoopState
                      (all_blocks st ++ [Page.mk [] (Z.of_nat p)])%list false))
        /\ (forall page_list toc,
              get_text_blocks settings tok unk doc tess_lang spell_lang max_pages
                = Ok (page_list, toc) ->
              nth_error page_list p = Some (Page.mk [] (Z.of_nat p)))).
Proof.
  intros Hfail.
  split; [now apply ocr_entire_page_fallback |].
  split; [intros pnum; now apply get_single_page_blocks_fallback |].
  intros doc max_pages p Hnth Hlim Hent.
  pose proof (nth_error_lt _ _ _ Hnth) as Hlt.
  pose proof (get_single_page_blocks_fallback _ _ _ _ (Z.of_nat p) _ _ Hfail) as Hocr.
  assert (Hst : exists st,
             state_before settings tok unk doc tess_lang spell_lang p = Ok st).
  { unfold enters_ocr_retry in Hent. rewrite Hnth in Hent.
    bind_inv Hent. now exists r. }
  destruct Hst as [st Hst].
  assert (Hnext : state_before settings tok unk doc tess_lang spell_lang (S p)
                  = Ok (mkLoopState (all_blocks st ++ [Page.mk [] (Z.of_nat p)])%list
                          false)).
  { rewrite (state_before_S _ _ _ _ _ _ _ _ Hnth), Hst. cbn [bind].
    exact (process_page_ocr _ _ _ _ _ _ _ _ _ _ Hnth Hst Hent Hocr). }
  split; [now exists st |].
  intros page_list toc Hget.
  rewrite get_text_blocks_limit in Hget. bind_inv Hget.
  injection Hget as <- _.
  destruct (state_before_prefix _ _ _ _ _ _ (S p) _ _ Hlim Hr)
    as (sta & new & Hsta & Hnew).
  rewrite Hnext in Hsta. injection Hsta as <-.
  rewrite Hnew. cbn [all_blocks].
  destruct (state_before_pages _ _ _ _ _ _ _ _ (Nat.lt_le_incl _ _ Hlt) Hst)
    as [_ Hlen].
  rewrite <- app_assoc, nth_error_app2 by lia.
  rewrite Hlen, Nat.sub_diag. reflexivity.
Qed.

Lemma C5_full_page_ocr_fallback_witness :
  exists page_list,
    get_text_blocks Fixtures.settings Fixtures.wordpunct_tokenize
      Fixtures.spell_unknown Fixtures.doc_ten "eng" (Some "en") (Some 7)
      = Ok (page_list, get_toc Fixtures.doc_ten)
    /\ nth_error page_list 5 = Some (Page.mk [] 5).
Proof.
  eexists. split; [vm_compute; reflexivity |].
  destruct (C5_full_page_ocr_fallback Fixtures.settings
              Fixtures.wordpunct_tokenize Fixtures.spell_unknown
              "eng" (Some "en") (Fixtures.garbled_page (Raise RuntimeError)))
    as (_ & _ & Hrun).
  - left. reflexivity.
  - destruct (Hrun Fixtures.doc_ten (Some 7) 5%nat) as [_ Hget].
    + reflexivity.
    + cbn. lia.
    + vm_compute. reflexivity.
    + eapply Hget. vm_compute. reflexivity.
Defined.

(** ** When [get_text_blocks] returns *)

Section Returns.

Variable settings : Settings.
Variable tok : string -> list string.
Variable unk : string -> list string -> list string.
Variable tess_lang : string.

Lemma detect_bad_ocr_returns (text : string) (spell_lang : option string)
    (mt st nt : Q) :
  text <> EmptyString ->
  exists b, detect_bad_ocr tok unk text spell_lang mt st nt = Ok b.
Proof.
  intros Hne. unfold detect_bad_ocr.
  destruct (misspell_test _ _ _ _ _ _); [now exists true |].
  assert (Hlen : len_str text <> 0) by now rewrite len_str_zero.
  rewrite !(truediv_ok _ _ Hlen). cbn [bind].
  destruct (Qltb st _); [now exists true |].
  destruct (Qltb nt _); [now exists true | now exists false].
Qed.

Section OnePage.

Variable page : Fitz.Page.
Hypothesis Hpage : well_behaved settings tess_lang page.

Lemma ocr_bbox_returns (old_text : string) (bbox : BBox) :
  exists t, ocr_bbox settings page old_text bbox tess_lang = Ok t.
Proof.
  destruct Hpage as [Hclip _]. specialize (Hclip bbox). unfold ocr_bbox.
  destruct (clip_ocr page (SEGMENT_DPI settings) bbox tess_lang)
    as [new_text | [| | name]]; try contradiction.
  - destruct (negb (truthy (strip new_text))); eexists; reflexivity.
  - now exists old_text.
Qed.

Lemma build_spans_returns (pnum : Z) (ss : list SpanDict.t) (n : Z) :
  exists r, build_spans settings page pnum tess_lang ss n = Ok r.
Proof.
  revert n. induction ss as [| s ss IH]; intros n; cbn [build_spans].
  - eexists; reflexivity.
  - unfold make_span.
    destruct (has_invalid_chars settings (SpanDict.text s)).
    + destruct (ocr_bbox_returns (SpanDict.text s) (SpanDict.bbox s)) as [t ->].
      cbn [bind]. destruct (IH (n + 1)) as [[spans n'] ->]. eexists; reflexivity.
    + cbn [bind]. destruct (IH (n + 1)) as [[spans n'] ->]. eexists; reflexivity.
Qed.

Lemma build_lines_returns (pnum : Z) (ls : list LineDict.t) (n : Z) :
  exists r, build_lines settings page pnum tess_lang ls n = Ok r.
Proof.
  revert n. induction ls as [| l ls IH]; intros n; cbn [build_lines].
  - eexists; reflexivity.
  - destruct (build_spans_returns pnum (LineDict.spans l) n) as [[spans n1] ->].
    cbn [bind]. destruct (IH n1) as [[lines n2] ->]. cbn [bind].
    destruct (Qltb 0 _); eexists; reflexivity.
Qed.

Lemma build_blocks_returns (pnum : Z) (bs : list BlockDict.t) (n : Z) :
  exists r, build_blocks settings page pnum tess_lang bs n = Ok r.
Proof.
  revert n. induction bs as [| b bs IH]; intros n; cbn [build_blocks].
  - eexists; reflexivity.
  - destruct (build_lines_returns pnum (BlockDict.lines b) n) as [[lines n1] ->].
    cbn [bind]. destruct (IH n1) as [[blocks n2] ->]. cbn [bind].
    destruct (0 <? _); eexists; reflexivity.
Qed.

Lemma ocr_entire_page_returns (spell_lang : option string) :
  exists bs, ocr_entire_page settings tok unk page tess_lang spell_lang = Ok bs.
Proof.
  destruct Hpage as [_ Hocr]. unfold ocr_entire_page.
  destruct (textpage_ocr page (DPI settings) tess_lang)
    as [[blocks full_text] | [| | name]]; try contradiction.
  - cbn [bind]. unfold detect_bad_ocr_default.
    destruct (detect_bad_ocr_returns full_text spell_lang 0.8%Q 0.5%Q 0.3%Q Hocr)
      as [b ->].
    cbn [bind]. destruct b; eexists; reflexivity.
  - now exists [].
Qed.

Lemma get_single_page_blocks_returns (pnum : Z) (spell_lang : option string)
    (ocr : bool) :
  exists blocks,
    get_single_page_blocks settings tok unk page pnum tess_lang spell_lang ocr
    = Ok blocks.
Proof.
  unfold get_single_page_blocks.
  assert (Hsrc : exists raw,
             (if ocr then ocr_entire_page settings tok unk page tess_lang spell_lang
              else Ok (get_text_dict page)) = Ok raw).
  { destruct ocr; [apply ocr_entire_page_returns | eexists; reflexivity]. }
  destruct Hsrc as [raw ->]. cbn [bind].
  destruct (build_blocks_returns pnum raw 0) as [[blocks n] ->].
  eexists; reflexivity.
Qed.

Lemma process_page_returns (doc_len : Z) (spell_lang : option string)
    (pnum : Z) (st : LoopState) :
  exists st',
    process_page settings tok unk doc_len tess_lang spell_lang pnum page st
    = Ok st'.
Proof.
  unfold process_page.
  destruct (get_single_page_blocks_returns pnum None false) as [blocks ->].
  cbn [bind]. rewrite conditions_ok. cbn [bind].
  destruct (all _).
  - destruct (get_single_page_blocks_returns pnum spell_lang true) as [ob ->].
    eexists; reflexivity.
  - eexists; reflexivity.
Qed.

End OnePage.

Lemma pages_loop_returns (doc_len : Z) (spell_lang : option string)
    (max_pages : option Z) (rest : list Fitz.Page) (n : Z) (st : LoopState) :
  Forall (well_behaved settings tess_lang) rest ->
  exists st',
    pages_loop settings tok unk doc_len tess_lang spell_lang max_pages rest n st
    = Ok st'.
Proof.
  intros Hall. revert n st.
  induction Hall as [| page rest Hpage Hrest IH]; intros n st; cbn [pages_loop].
  - now exists st.
  - destruct (limit_reached max_pages n); [now exists st |].
    destruct (process_page_returns page Hpage doc_len spell_lang n st) as [st1 ->].
    cbn [bind]. apply IH.
Qed.

(** On a document whose pages are all well behaved [get_text_blocks]
    returns, for every language setting and page limit. *)
Lemma get_text_blocks_returns (doc : Document) (spell_lang : option string)
    (max_pages : option Z) :
  Forall (well_behaved settings tess_lang) (pages doc) ->
  exists page_list,
    get_text_blocks settings tok unk doc tess_lang spell_lang max_pages
    = Ok (page_list, get_toc doc).
Proof.
  intros Hall. unfold get_text_blocks.
  destruct (pages_loop_returns (len_list (pages doc)) spell_lang max_pages
              (pages doc) 0 (mkLoopState [] false) Hall) as [st ->].
  eexists; reflexivity.
Qed.

End Returns.

(** C10: the page limit applies only when [max_pages] is truthy.  The
    result of [get_text_blocks] is that of the run without a limit over
    the first [page_limit] pages, and it is returned whenever the pages
    are well behaved.  When it is returned: with [max_pages] [None] or 0
    the page list has one page per page of the document; with
    [max_pages >= 1] it has [min(max_pages, len(doc))] pages; in both
    cases the pages are numbered 0, 1, 2, ... in order, and the table of
    contents is the document's. *)
Theorem C10_page_limit (settings : Settings)
    (tok : string -> list string) (unk : string -> list string -> list string)
    (doc : Document) (tess_lang : string) (spell_lang : option string)
    (max_pages : option Z) :
  (Forall (well_behaved settings tess_lang) (pages doc) ->
   exists page_list,
     get_text_blocks settings tok unk doc tess_lang spell_lang max_pages
     = Ok (page_list, get_toc doc))
  /\ get_text_blocks settings tok unk doc tess_lang spell_lang max_pages
     = bind (state_before settings tok unk doc tess_lang spell_lang
               (page_limit max_pages (List.length (pages doc))))
            (fun st => Ok (all_blocks st, get_toc doc))
  /\ forall page_list toc,
       get_text_blocks settings tok unk doc tess_lang spell_lang max_pages
         = Ok (page_list, toc) ->
       toc = get_toc doc
       /\ (max_pages = None \/ max_pages = Some 0 ->
           List.length page_list = List.length (pages doc))
       /\ (forall m, max_pages = Some m -> 1 <= m ->
           len_list page_list = Z.min m (len_list (pages doc)))
       /\ map Page.pnum page_list = zrange 0 (List.length page_list).
Proof.
  split; [apply get_text_blocks_returns |].
  split; [apply get_text_blocks_limit |].
  intros page_list toc H. rewrite get_text_blocks_limit in H.
  bind_inv H. injection H as <- <-.
  destruct (state_before_pages _ _ _ _ _ _ _ _
              (page_limit_le max_pages (List.length (pages doc))) Hr)
    as [Hmap Hlen].
  split; [reflexivity |]. split; [| split].
  - intros [-> | ->]; rewrite Hlen; reflexivity.
  - intros m -> Hm. unfold len_list. rewrite Hlen. unfold page_limit.
    destruct (Z.eqb_spec m 0); lia.
  - now rewrite Hlen.
Qed.

Lemma C10_page_limit_witness :
  exists limited everything,
    get_text_blocks Fixtures.settings Fixtures.wordpunct_tokenize
      Fixtures.spell_unknown Fixtures.doc_ten "eng" (Some "en") (Some 7)
      = Ok (limited, get_toc Fixtures.doc_ten)
    /\ len_list limited = 7
    /\ get_text_blocks Fixtures.settings Fixtures.wordpunct_tokenize
         Fixtures.spell_unknown Fixtures.doc_ten "eng" (Some "en") (Some 0)
       = Ok (everything, get_toc Fixtures.doc_ten)
    /\ List.length everything = 10%nat.
Proof.
  eexists. eexists.
  split; [vm_compute; reflexivity |]. split; [reflexivity |].
  split; [vm_compute; reflexivity |].
  destruct (C10_page_limit Fixtures.settings Fixtures.wordpunct_tokenize
              Fixtures.spell_unknown Fixtures.doc_ten "eng" (Some "en") (Some 0))
    as (_ & _ & Hget).
  destruct (Hget _ _ eq_refl) as (_ & Hzero & _).
  apply Hzero. right. reflexivity.
Defined.

(* ================================================================== *)
(** * Further properties of the module *)

(** ** [TEXT_FLAGS] *)

(** X1: [TEXT_FLAGS] is the conjunction of three flags taken as they
    are and three complemented ones; as soon as two of the three flags
    taken as they are have no bit in common, as distinct one-bit flags
    do, it is 0, so that no extraction option is requested. *)
Theorem TEXT_FLAGS_disjoint_zero (lig ws img inh deh clip : Z) :
  Z.land ws deh = 0 \/ Z.land ws clip = 0 \/ Z.land deh clip = 0 ->
  TEXT_FLAGS lig ws img inh deh clip = 0.
Proof.
  intros H. unfold TEXT_FLAGS. apply Z.bits_inj'. intros n Hn.
  rewrite !Z.land_spec, Z.bits_0.
  assert (Hb : Z.testbit ws n && Z.testbit deh n = false
               \/ Z.testbit ws n && Z.testbit clip n = false
               \/ Z.testbit deh n && Z.testbit clip n = false).
  { destruct H as [H | [H | H]];
      apply (f_equal (fun z => Z.testbit z n)) in H;
      rewrite Z.land_spec, Z.bits_0 in H; auto. }
  destruct (Z.testbit ws n), (Z.testbit deh n), (Z.testbit clip n);
    cbn in Hb |- *; rewrite ?andb_false_r; try reflexivity;
    destruct Hb as [Hb | [Hb | Hb]]; discriminate.
Qed.

Lemma TEXT_FLAGS_disjoint_zero_witness : TEXT_FLAGS 1 2 4 8 16 64 = 0.
Proof.
  apply TEXT_FLAGS_disjoint_zero. left. reflexivity.
Defined.

(** ** [font_flags_decomposer] *)

Lemma land_pow2_truthy (x k : Z) :
  0 <= k -> int_truthy (Z.land x (2 ^ k)) = Z.testbit x k.
Proof.
  intros Hk. unfold int_truthy.
  destruct (Z.testbit x k) eqn:Hbit.
  - apply negb_true_iff, Z.eqb_neq. intros H0.
    apply (f_equal (fun z => Z.testbit z k)) in H0.
    rewrite Z.land_spec, Z.bits_0, Hbit, Z.pow2_bits_true in H0 by exact Hk.
    discriminate.
  - apply negb_false_iff, Z.eqb_eq. apply Z.bits_inj'. intros n Hn.
    rewrite Z.land_spec, Z.bits_0.
    destruct (Z.eq_dec n k) as [-> | Hne].
    + now rewrite Hbit.
    + rewrite (Z.pow2_bits_false k n) by lia. apply andb_false_r.
Qed.

(** The tag is made of the five low bits of [flags], tested in the
    order superscript, italic, serif, monospace, bold: the serif bit and
    the monospace bit each contribute exactly one of their two labels,
    the other three bits a label or nothing. *)
Lemma font_flags_decomposer_bits (flags : Z) :
  font_flags_decomposer flags
  = font_style_tag (Z.testbit flags 0) (Z.testbit flags 1) (Z.testbit flags 2)
      (Z.testbit flags 3) (Z.testbit flags 4).
Proof.
  unfold font_flags_decomposer.
  rewrite !land_pow2_truthy by lia.
  destruct (Z.testbit flags 0), (Z.testbit flags 1), (Z.testbit flags 2),
    (Z.testbit flags 3), (Z.testbit flags 4); reflexivity.
Qed.

Lemma font_style_tag_inj (a0 a1 a2 a3 a4 b0 b1 b2 b3 b4 : bool) :
  font_style_tag a0 a1 a2 a3 a4 = font_style_tag b0 b1 b2 b3 b4 ->
  a0 = b0 /\ a1 = b1 /\ a2 = b2 /\ a3 = b3 /\ a4 = b4.
Proof.
  destruct a0, a1, a2, a3, a4, b0, b1, b2, b3, b4; cbn; intros H;
    try discriminate H; repeat split.
Qed.

Lemma testbit_mod_32 (x k : Z) :
  Z.testbit (x mod 32) k = (k <? 5) && Z.testbit x k.
Proof.
  change 32 with (2 ^ 5).
  destruct (Z.ltb_spec k 5) as [Hlt | Hge]; cbn [andb].
  - destruct (Z.neg_nonneg_cases k) as [Hneg | Hpos].
    + now rewrite !Z.testbit_neg_r.
    + apply Z.mod_pow2_bits_low. lia.
  - apply Z.mod_pow2_bits_high. lia.
Qed.

(** X2: two flag values get the same tag if and only if they agree on
    their five low bits: the tag ignores every higher bit, of negative
    values too, and loses nothing of the five it decodes. *)
Theorem font_flags_decomposer_eq_iff (a b : Z) :
  font_flags_decomposer a = font_flags_decomposer b <-> a mod 32 = b mod 32.
Proof.
  rewrite !font_flags_decomposer_bits. split.
  - intros H. apply font_style_tag_inj in H.
    destruct H as (H0 & H1 & H2 & H3 & H4).
    apply Z.bits_inj'. intros n Hn. rewrite !testbit_mod_32.
    destruct (Z.ltb_spec n 5) as [Hlt | Hge]; [| reflexivity]. cbn [andb].
    assert (Hcase : n = 0 \/ n = 1 \/ n = 2 \/ n = 3 \/ n = 4) by lia.
    destruct Hcase as [-> | [-> | [-> | [-> | ->]]]]; assumption.
  - intros H.
    assert (Hbit : forall k, 0 <= k < 5 -> Z.testbit a k = Z.testbit b k).
    { intros k Hk.
      pose proof (testbit_mod_32 a k) as Ha. pose proof (testbit_mod_32 b k) as Hb.
      rewrite H in Ha. rewrite Ha in Hb.
      destruct (Z.ltb_spec k 5); [exact Hb | lia]. }
    now rewrite !Hbit by lia.
Qed.

(** ** [alphanum_ratio] *)

Lemma count_if_le_length (p : ascii -> bool) (s : string) :
  (count_if p s <= String.length s)%nat.
Proof.
  induction s as [| c s IH]; cbn [count_if String.length]; [lia |].
  destruct (p c); lia.
Qed.

Lemma count_if_all (p : ascii -> bool) (s : string) :
  count_if p s = String.length s <-> all_chars p s = true.
Proof.
  induction s as [| c s IH]; cbn [count_if String.length all_chars]; [tauto |].
  pose proof (count_if_le_length p s) as Hle.
  destruct (p c); cbn [andb].
  - rewrite <- IH. lia.
  - split; [lia | discriminate].
Qed.

Lemma Qdiv_nat_bounds (a b : nat) :
  (a <= b)%nat -> (0 < b)%nat ->
  (0 <= inject_Z (Z.of_nat a) / inject_Z (Z.of_nat b)
   /\ inject_Z (Z.of_nat a) / inject_Z (Z.of_nat b) <= 1)%Q.
Proof.
  intros Hab Hb.
  assert (Hpos : (0 < inject_Z (Z.of_nat b))%Q).
  { change 0%Q with (inject_Z 0). rewrite <- Zlt_Qlt. lia. }
  split.
  - apply Qle_shift_div_l; [exact Hpos |]. rewrite Qmult_0_l.
    change 0%Q with (inject_Z 0). rewrite <- Zle_Qle. lia.
  - apply Qle_shift_div_r; [exact Hpos |]. rewrite Qmult_1_l.
    rewrite <- Zle_Qle. lia.
Qed.

Lemma Qdiv_nat_one (a b : nat) :
  (0 < b)%nat ->
  (inject_Z (Z.of_nat a) / inject_Z (Z.of_nat b) == 1)%Q <-> a = b.
Proof.
  intros Hb.
  assert (Hnz : ~ (inject_Z (Z.of_nat b) == 0)%Q).
  { change 0%Q with (inject_Z 0). rewrite inject_Z_injective. lia. }
  split.
  - intros H.
    assert (Heq : (inject_Z (Z.of_nat a) == inject_Z (Z.of_nat b))%Q).
    { rewrite <- (Qmult_div_r (inject_Z (Z.of_nat a)) (inject_Z (Z.of_nat b)) Hnz).
      rewrite H. apply Qmult_1_r. }
    apply (proj1 (inject_Z_injective _ _)) in Heq. lia.
  - intros ->. unfold Qdiv. now apply Qmult_inv_r.
Qed.

(** X3: [alphanum_ratio] never raises; the ratio it returns lies
    between 0 and 1, and it is 1 exactly when every character of the
    text is alphanumeric, the empty text included. *)
Theorem alphanum_ratio_range (text : string) :
  exists ratio,
    alphanum_ratio text = Ok ratio
    /\ (0 <= ratio)%Q /\ (ratio <= 1)%Q
    /\ ((ratio == 1)%Q <-> all_chars isalnum_char text = true).
Proof.
  exists (alphanum_ratio_value text). split; [apply alphanum_ratio_ok |].
  destruct text as [| c s]; cbn [alphanum_ratio_value].
  - repeat split; try reflexivity; discriminate.
  - unfold len_str.
    assert (Hlen : (0 < String.length (String c s))%nat) by (cbn; lia).
    pose proof (count_if_le_length isalnum_char (String c s)) as Hle.
    destruct (Qdiv_nat_bounds _ _ Hle Hlen) as [H0 H1].
    split; [exact H0 |]. split; [exact H1 |].
    rewrite (Qdiv_nat_one _ _ Hlen). apply count_if_all.
Qed.

(** ** [detect_bad_ocr]: when it raises, and how it varies with the
    thresholds *)

Section DetectBadOcrMore.

Variable tok : string -> list string.
Variable unk : string -> list string -> list string.

Lemma detect_bad_ocr_unfold (text : string) (spell_lang : option string)
    (mt st nt : Q) :
  detect_bad_ocr tok unk text spell_lang mt st nt
  = if misspelling_fires tok unk text spell_lang mt then Ok true
    else if len_str text =? 0 then Raise ZeroDivisionError
    else Ok (Qltb st (char_fraction " " text)
             || Qltb nt (char_fraction "010" text)).
Proof.
  unfold detect_bad_ocr, misspelling_fires, tokens.
  destruct (misspell_test _ _ _ _ _ _); [reflexivity |].
  unfold truediv. destruct (len_str text =? 0); [reflexivity |].
  cbn [bind]. fold (char_fraction " " text). fold (char_fraction "010" text).
  destruct (Qltb st _); [reflexivity |].
  destruct (Qltb nt _); reflexivity.
Qed.

Lemma detect_bad_ocr_raise_inv (text : string) (spell_lang : option string)
    (mt st nt : Q) (e : exn) :
  detect_bad_ocr tok unk text spell_lang mt st nt = Raise e ->
  e = ZeroDivisionError /\ text = EmptyString.
Proof.
  rewrite detect_bad_ocr_unfold.
  destruct (misspelling_fires tok unk text spell_lang mt); [discriminate |].
  destruct (Z.eqb_spec (len_str text) 0) as [Hz | Hnz]; [| discriminate].
  intros [= <-]. split; [reflexivity | now apply len_str_zero].
Qed.

End DetectBadOcrMore.

(** X4: [detect_bad_ocr] raises in one case only: the text is empty
    and the misspelling test does not fire (as when no spell-check
    language is configured); the exception is then
    [ZeroDivisionError].  On every other input it returns a boolean. *)
Theorem detect_bad_ocr_raises_iff (tok : string -> list string)
    (unk : string -> list string -> list string)
    (text : string) (spell_lang : option string) (mt st nt : Q) (e : exn) :
  detect_bad_ocr tok unk text spell_lang mt st nt = Raise e
  <-> e = ZeroDivisionError /\ text = EmptyString
      /\ misspelling_fires tok unk text spell_lang mt = false.
Proof.
  rewrite detect_bad_ocr_unfold.
  destruct (misspelling_fires tok unk text spell_lang mt).
  - split; [discriminate | intros (_ & _ & H); discriminate].
  - destruct (Z.eqb_spec (len_str text) 0) as [Hz | Hnz].
    + apply len_str_zero in Hz. split.
      * intros [= <-]. now repeat split.
      * intros (-> & _ & _). reflexivity.
    + split; [discriminate |]. intros (_ & Hempty & _).
      apply len_str_zero in Hempty. contradiction.
Qed.

Lemma Qltb_weaken (x x' y : Q) :
  (x <= x')%Q -> Qltb x' y = true -> Qltb x y = true.
Proof.
  rewrite !Qltb_lt. intros Hle Hlt. now apply Qle_lt_trans with x'.
Qed.

Lemma misspelling_fires_weaken (tok : string -> list string)
    (unk : string -> list string -> list string) (text : string)
    (spell_lang : option string) (mt mt' : Q) :
  (mt <= mt')%Q ->
  misspelling_fires tok unk text spell_lang mt' = true ->
  misspelling_fires tok unk text spell_lang mt = true.
Proof.
  intros Hle. unfold misspelling_fires, misspell_test.
  destruct spell_lang as [lang |]; [| discriminate].
  destruct (truthy lang); [| discriminate]. cbn [andb].
  apply Qltb_weaken.
  rewrite !(Qmult_comm (inject_Z (len_list (tokens tok text)))).
  apply Qmult_le_compat_r; [exact Hle |].
  change 0%Q with (inject_Z 0). rewrite <- Zle_Qle. unfold len_list. lia.
Qed.

(** X5: lowering a threshold never clears a verdict: a text declared
    garbled at thresholds [mt'], [st'], [nt'] is declared garbled at any
    thresholds that are no larger. *)
Theorem detect_bad_ocr_antitone (tok : string -> list string)
    (unk : string -> list string -> list string)
    (text : string) (spell_lang : option string) (mt st nt mt' st' nt' : Q) :
  (mt <= mt')%Q -> (st <= st')%Q -> (nt <= nt')%Q ->
  detect_bad_ocr tok unk text spell_lang mt' st' nt' = Ok true ->
  detect_bad_ocr tok unk text spell_lang mt st nt = Ok true.
Proof.
  intros Hmt Hst Hnt. rewrite !detect_bad_ocr_unfold.
  destruct (misspelling_fires tok unk text spell_lang mt') eqn:Hfire.
  - intros _. now rewrite (misspelling_fires_weaken _ _ _ _ _ _ Hmt Hfire).
  - destruct (misspelling_fires tok unk text spell_lang mt); [reflexivity |].
    destruct (len_str text =? 0); [discriminate |].
    intros [= H]. f_equal. apply orb_true_iff in H. apply orb_true_iff.
    destruct H as [H | H];
      [left; exact (Qltb_weaken _ _ _ Hst H) | right; exact (Qltb_weaken _ _ _ Hnt H)].
Qed.

Lemma detect_bad_ocr_antitone_witness :
  detect_bad_ocr Fixtures.wordpunct_tokenize Fixtures.spell_unknown
    "a b c " None 0.8%Q 0.4%Q 0.3%Q = Ok true.
Proof.
  apply (detect_bad_ocr_antitone Fixtures.wordpunct_tokenize
           Fixtures.spell_unknown "a b c " None
           0.8%Q 0.4%Q 0.3%Q 0.8%Q 0.45%Q 0.3%Q).
  - vm_compute. discriminate.
  - vm_compute. discriminate.
  - vm_compute. discriminate.
  - vm_compute. reflexivity.
Defined.

(** ** [ocr_entire_page]: its three outcomes *)

(** X6: [ocr_entire_page] never lets a [RuntimeError] through.  What it
    returns is the empty list or, when the quality gate accepts the
    recognized text, the engine's blocks as they are; what it raises is
    an exception of the engine other than [RuntimeError], or
    [ZeroDivisionError] on an empty recognized text. *)
Theorem ocr_entire_page_outcomes (settings : Settings)
    (tok : string -> list string) (unk : string -> list string -> list string)
    (page : Fitz.Page) (lang : string) (spell_lang : option string) :
  ocr_entire_page settings tok unk page lang spell_lang <> Raise RuntimeError
  /\ (forall blocks,
        ocr_entire_page settings tok unk page lang spell_lang = Ok blocks ->
        blocks = []
        \/ exists full_text,
             textpage_ocr page (DPI settings) lang = Ok (blocks, full_text)
             /\ detect_bad_ocr_default tok unk full_text spell_lang = Ok false)
  /\ (forall e,
        ocr_entire_page settings tok unk page lang spell_lang = Raise e ->
        (textpage_ocr page (DPI settings) lang = Raise e /\ e <> RuntimeError)
        \/ (e = ZeroDivisionError
            /\ exists blocks,
                 textpage_ocr page (DPI settings) lang = Ok (blocks, EmptyString))).
Proof.
  unfold ocr_entire_page.
  destruct (textpage_ocr page (DPI settings) lang)
    as [[blocks full_text] | e0] eqn:Hocr; cbn [bind].
  - destruct (detect_bad_ocr_default tok unk full_text spell_lang)
      as [bad | e1] eqn:Hgate; cbn [bind].
    + destruct bad; cbn [try_except_RuntimeError].
      * split; [discriminate |]. split; [| discriminate].
        intros bs [= <-]. now left.
      * split; [discriminate |]. split; [| discriminate].
        intros bs [= <-]. right. now exists full_text.
    + unfold detect_bad_ocr_default in Hgate.
      apply detect_bad_ocr_raise_inv in Hgate. destruct Hgate as [-> ->].
      cbn [try_except_RuntimeError].
      split; [discriminate |]. split; [discriminate |].
      intros e [= <-]. right. split; [reflexivity | now exists blocks].
  - destruct e0 as [| | name]; cbn [try_except_RuntimeError].
    + split; [discriminate |]. split; [| discriminate].
      intros bs [= <-]. now left.
    + split; [discriminate |]. split; [discriminate |].
      intros e [= <-]. left. split; [reflexivity | discriminate].
    + split; [discriminate |]. split; [discriminate |].
      intros e [= <-]. left. split; [reflexivity | discriminate].
Qed.

(** ** [ocr_bbox]: what a repair keeps *)

Lemma all_chars_append (p : ascii -> bool) (s t : string) :
  all_chars p (s ++ t) = all_chars p s && all_chars p t.
Proof.
  induction s as [| c s IH]; cbn [append all_chars]; [reflexivity |].
  now rewrite IH, andb_assoc.
Qed.

Lemma all_chars_repeat (p : ascii -> bool) (c : ascii) (n : nat) :
  p c = true -> all_chars p (repeat_char c n) = true.
Proof.
  intros Hc. induction n as [| n IH]; cbn [repeat_char all_chars];
    [reflexivity | now rewrite Hc, IH].
Qed.

Lemma length_repeat_char (c : ascii) (n : nat) :
  String.length (repeat_char c n) = n.
Proof.
  induction n as [| n IH]; cbn [repeat_char String.length];
    [reflexivity | now rewrite IH].
Qed.

Lemma lstrip_empty_iff (s : string) :
  lstrip s = EmptyString <-> all_chars isspace s = true.
Proof.
  induction s as [| c s IH]; cbn [lstrip all_chars]; [tauto |].
  destruct (isspace c); cbn [andb]; [exact IH |].
  split; discriminate.
Qed.

Lemma trailing_whitespace_isspace (s : string) :
  all_chars isspace (trailing_whitespace s) = true.
Proof.
  induction s as [| c s IH]; [reflexivity |].
  cbn [trailing_whitespace].
  destruct (all_chars isspace (String c s)) eqn:Hall; [exact Hall | exact IH].
Qed.

(** A text is blank after trimming exactly when all its characters are
    whitespace. *)
Lemma strip_empty_iff (s : string) :
  strip s = EmptyString <-> all_chars isspace s = true.
Proof.
  unfold strip. split.
  - intros H. apply lstrip_empty_iff in H.
    rewrite (rstrip_split s), all_chars_append, H.
    apply trailing_whitespace_isspace.
  - intros H. apply rstrip_empty_iff in H. now rewrite H.
Qed.

Lemma strip_truthy_iff (s : string) :
  truthy (strip s) = true <-> all_chars isspace s = false.
Proof.
  rewrite <- not_true_iff_false, <- strip_empty_iff.
  destruct (strip s); cbn; split; congruence.
Qed.

(** X7: a repair never erases a span: whenever [ocr_bbox] returns,
    whatever the engine recognized, the text returned for an original
    that is not blank is not blank. *)
Theorem ocr_bbox_keeps_content (settings : Settings) (page : Fitz.Page)
    (old_text new_text : string) (bbox : BBox) (lang : string) :
  ocr_bbox settings page old_text bbox lang = Ok new_text ->
  truthy (strip old_text) = true ->
  truthy (strip new_text) = true.
Proof.
  unfold ocr_bbox.
  destruct (clip_ocr page (SEGMENT_DPI settings) bbox lang)
    as [recognized | [| | name]]; try discriminate.
  - destruct (truthy (strip recognized)) eqn:Hrec; cbn [negb].
    + intros [= <-] _.
      apply strip_truthy_iff. apply strip_truthy_iff in Hrec.
      now rewrite !all_chars_append, Hrec, andb_false_r.
    + now intros [= <-].
  - now intros [= <-].
Qed.

Lemma ocr_bbox_keeps_content_witness :
  exists new_text,
    ocr_bbox Fixtures.settings (Fixtures.clip_page (Ok "x")) "a~b "
      Fixtures.box "eng" = Ok new_text
    /\ truthy (strip new_text) = true.
Proof.
  eexists. split; [reflexivity |].
  apply (ocr_bbox_keeps_content Fixtures.settings
           (Fixtures.clip_page (Ok "x")) "a~b " _ Fixtures.box "eng");
    reflexivity.
Defined.

(** X8: when the engine recognizes a text that is not blank for an
    original that is not blank, the text returned is longer than the
    original by exactly as much as the recognized text is longer than
    the original's stripped form: the padding restores the width of the
    trimmed whitespace, character for character. *)
Theorem ocr_bbox_length (settings : Settings) (page : Fitz.Page)
    (old_text recognized : string) (bbox : BBox) (lang : string) :
  clip_ocr page (SEGMENT_DPI settings) bbox lang = Ok recognized ->
  truthy (strip recognized) = true ->
  truthy (strip old_text) = true ->
  exists new_text,
    ocr_bbox settings page old_text bbox lang = Ok new_text
    /\ (String.length new_text + String.length (strip old_text)
        = String.length old_text + String.length recognized)%nat.
Proof.
  intros Hocr Hrec Hold.
  rewrite (ocr_bbox_recognized _ _ _ _ _ _ Hocr Hrec).
  eexists. split; [reflexivity |].
  rewrite !length_append, !length_repeat_char.
  rewrite (strip_split old_text Hold) at 4.
  rewrite !length_append. lia.
Qed.

Lemma ocr_bbox_length_witness :
  exists new_text,
    ocr_bbox Fixtures.settings (Fixtures.clip_page (Ok "a-b")) "  a~b "
      Fixtures.box "eng" = Ok new_text
    /\ (String.length new_text + String.length (strip "  a~b ")
        = String.length "  a~b " + String.length "a-b")%nat.
Proof.
  apply ocr_bbox_length; reflexivity.
Defined.

(** ** [get_single_page_blocks]: what the hierarchy keeps of its source *)

Lemma filter_nil_existsb {A} (p : A -> bool) (l : list A) :
  (0 <? len_list (filter p l)) = existsb p l.
Proof.
  induction l as [| x l IH]; cbn [filter existsb]; [reflexivity |].
  destruct (p x); cbn [orb]; [| exact IH].
  unfold len_list. cbn [List.length]. apply Z.ltb_lt. lia.
Qed.

Section Attributes.

Variable settings : Settings.
Variable page : Fitz.Page.
Variable pnum : Z.
Variable tess_lang : string.

Lemma make_span_from (d : SpanDict.t) (n : Z) (s : Span.t) :
  make_span settings page pnum tess_lang d n = Ok s -> span_from settings d s.
Proof.
  unfold make_span, span_from. intros H. bind_inv H. injection H as <-.
  cbn. repeat split. intros Hclean. rewrite Hclean in Hr. now injection Hr as <-.
Qed.

Lemma build_spans_from (ss : list SpanDict.t) (n : Z) (spans : list Span.t) (n' : Z) :
  build_spans settings page pnum tess_lang ss n = Ok (spans, n') ->
  Forall2 (span_from settings) ss spans.
Proof.
  revert n spans n'.
  induction ss as [| d ss IH]; intros n spans n' H; cbn [build_spans] in H.
  - injection H as <- _. constructor.
  - bind_inv H. bind_inv H. destruct r0 as [rest n1]. injection H as <- _.
    constructor; [exact (make_span_from _ _ _ Hr) | exact (IH _ _ _ Hr0)].
Qed.

Lemma build_lines_from (ls : list LineDict.t) (n : Z) (lines : list Line.t) (n' : Z) :
  build_lines settings page pnum tess_lang ls n = Ok (lines, n') ->
  Forall2 (span_from settings)
    (flat_map (fun l => if positive_line l then LineDict.spans l else []) ls)
    (flat_map Line.spans lines)
  /\ map Line.bbox lines = map LineDict.bbox (filter positive_line ls).
Proof.
  revert n lines n'.
  induction ls as [| l ls IH]; intros n lines n' H; cbn [build_lines] in H.
  - injection H as <- _. split; [constructor | reflexivity].
  - bind_inv H. destruct r as [spans n1]. bind_inv H. destruct r as [rest n2].
    pose proof (build_spans_from _ _ _ _ Hr) as Hspans.
    destruct (IH _ _ _ Hr0) as [Hrest Hbox].
    change (Line.area (Line.mk spans (LineDict.bbox l)))
      with (bbox_area (LineDict.bbox l)) in H.
    cbn [flat_map filter]. unfold positive_line at 1 3.
    destruct (Qltb 0 (bbox_area (LineDict.bbox l))); injection H as <- _.
    + split.
      * cbn [flat_map Line.spans]. now apply Forall2_app.
      * cbn [map Line.bbox]. now rewrite Hbox.
    + split; assumption.
Qed.

Lemma build_blocks_from (bs : list BlockDict.t) (n : Z) (blocks : list Block.t) (n' : Z) :
  build_blocks settings page pnum tess_lang bs n = Ok (blocks, n') ->
  Forall2 (span_from settings) (retained_span_dicts bs) (page_spans blocks)
  /\ map Block.bbox blocks = map BlockDict.bbox (filter kept_block bs)
  /\ map (fun b => map Line.bbox (Block.lines b)) blocks
     = map (fun b => map LineDict.bbox (filter positive_line (BlockDict.lines b)))
         (filter kept_block bs)
  /\ Forall (fun b => Block.pnum b = pnum) blocks.
Proof.
  revert n blocks n'.
  induction bs as [| b bs IH]; intros n blocks n' H; cbn [build_blocks] in H.
  - injection H as <- _. repeat split; constructor.
  - bind_inv H. destruct r as [block_lines n1]. bind_inv H. destruct r as [rest n2].
    destruct (build_lines_from _ _ _ _ Hr) as [Hspans Hbox].
    destruct (IH _ _ _ Hr0) as (Hrest & Hbb & Hlb & Hpn).
    assert (Hkept : (0 <? len_list block_lines) = kept_block b).
    { unfold kept_block. rewrite <- filter_nil_existsb. unfold len_list.
      now rewrite <- (length_map Line.bbox), Hbox, length_map. }
    rewrite Hkept in H. unfold retained_span_dicts, page_spans in *.
    cbn [flat_map filter].
    destruct (kept_block b) eqn:Hk; injection H as <- _.
    + cbn [flat_map map Block.lines Block.bbox].
      split; [now apply Forall2_app |].
      split; [now rewrite Hbb |].
      split; [now rewrite Hbox, Hlb |].
      constructor; [reflexivity | exact Hpn].
    + split; [| now repeat split].
      rewrite <- Hkept in Hk. destruct block_lines as [| x xs]; [| discriminate].
      cbn [flat_map] in Hspans. inversion Hspans as [Hnil |]. exact Hrest.
Qed.

End Attributes.

(** X9: every span of the page returned carries the attributes of its
    source span unchanged: bounding box, color, ascender and descender;
    its font is the source font name followed by the style tag; and its
    text is the source text verbatim unless that holds an invalid
    character.  The spans returned are, in order, those of the source
    lines of positive area. *)
Theorem get_single_page_blocks_spans (settings : Settings)
    (tok : string -> list string) (unk : string -> list string -> list string)
    (page : Fitz.Page) (pnum : Z) (tess_lang : string)
    (spell_lang : option string) (ocr : bool) (page_blocks : list Block.t) :
  get_single_page_blocks settings tok unk page pnum tess_lang spell_lang ocr
    = Ok page_blocks ->
  exists raw,
    source_blocks settings tok unk page tess_lang spell_lang ocr = Ok raw
    /\ Forall2 (span_from settings) (retained_span_dicts raw)
         (page_spans page_blocks).
Proof.
  unfold get_single_page_blocks. intros H.
  bind_inv H. bind_inv H. destruct r0 as [blocks n']. injection H as <-.
  exists r. split; [exact Hr |].
  exact (proj1 (build_blocks_from _ _ _ _ _ _ _ _ Hr0)).
Qed.

(** X10: a source block is kept exactly when one of its lines has
    positive area, and a source line exactly when it has: the blocks
    returned are the kept source blocks in source order, each with its
    own bounding box, the page number passed in, and the bounding boxes
    of its kept lines in source order. *)
Theorem get_single_page_blocks_retention (settings : Settings)
    (tok : string -> list string) (unk : string -> list string -> list string)
    (page : Fitz.Page) (pnum : Z) (tess_lang : string)
    (spell_lang : option string) (ocr : bool) (page_blocks : list Block.t) :
  get_single_page_blocks settings tok unk page pnum tess_lang spell_lang ocr
    = Ok page_blocks ->
  exists raw,
    source_blocks settings tok unk page tess_lang spell_lang ocr = Ok raw
    /\ map Block.bbox page_blocks = map BlockDict.bbox (filter kept_block raw)
    /\ map (fun b => map Line.bbox (Block.lines b)) page_blocks
       = map (fun b => map LineDict.bbox (filter positive_line (BlockDict.lines b)))
           (filter kept_block raw)
    /\ Forall (fun b => Block.pnum b = pnum) page_blocks.
Proof.
  unfold get_single_page_blocks. intros H.
  bind_inv H. bind_inv H. destruct r0 as [blocks n']. injection H as <-.
  exists r. split; [exact Hr |].
  exact (proj2 (build_blocks_from _ _ _ _ _ _ _ _ Hr0)).
Qed.

Lemma get_single_page_blocks_spans_witness :
  exists page_blocks raw,
    get_single_page_blocks Fixtures.settings Fixtures.wordpunct_tokenize
      Fixtures.spell_unknown Fixtures.mixed_page 7 "eng" None false
      = Ok page_blocks
    /\ raw = get_text_dict Fixtures.mixed_page
    /\ Forall2 (span_from Fixtures.settings) (retained_span_dicts raw)
         (page_spans page_blocks).
Proof.
  destruct (get_single_page_blocks_spans Fixtures.settings
              Fixtures.wordpunct_tokenize Fixtures.spell_unknown
              Fixtures.mixed_page 7 "eng" None false _ eq_refl)
    as (raw & Hraw & Hspans).
  injection Hraw as <-.
  eexists. eexists. split; [reflexivity |]. split; [reflexivity | exact Hspans].
Defined.

Lemma get_single_page_blocks_retention_witness :
  exists page_blocks,
    get_single_page_blocks Fixtures.settings Fixtures.wordpunct_tokenize
      Fixtures.spell_unknown Fixtures.mixed_page 7 "eng" None false
      = Ok page_blocks
    /\ map Block.bbox page_blocks = [Fixtures.box; Fixtures.box]
    /\ Forall (fun b => Block.pnum b = 7) page_blocks.
Proof.
  destruct (get_single_page_blocks_retention Fixtures.settings
              Fixtures.wordpunct_tokenize Fixtures.spell_unknown
              Fixtures.mixed_page 7 "eng" None false _ eq_refl)
    as (raw & Hraw & Hbb & _ & Hpn).
  injection Hraw as <-.
  eexists. split; [reflexivity |]. split; [exact Hbb | exact Hpn].
Defined.

(** ** [get_single_page_blocks] on text without invalid characters *)

Section CleanText.

Variable settings : Settings.
Variable pnum : Z.
Variable tess_lang : string.

Lemma build_spans_clean (ss : list SpanDict.t) (n : Z) :
  clean_spans settings ss = true ->
  exists r, forall page, build_spans settings page pnum tess_lang ss n = Ok r.
Proof.
  revert n. induction ss as [| s ss IH]; intros n Hclean.
  - eexists. intros page. reflexivity.
  - cbn [clean_spans forallb] in Hclean. apply andb_true_iff in Hclean.
    destruct Hclean as [Hs Hss]. apply negb_true_iff in Hs.
    destruct (IH (n + 1) Hss) as [[spans n'] Hrest].
    eexists. intros page. cbn [build_spans]. unfold make_span.
    rewrite Hs. cbn [bind]. rewrite Hrest. reflexivity.
Qed.

Lemma build_lines_clean (ls : list LineDict.t) (n : Z) :
  clean_lines settings ls = true ->
  exists r, forall page, build_lines settings page pnum tess_lang ls n = Ok r.
Proof.
  revert n. induction ls as [| l ls IH]; intros n Hclean.
  - eexists. intros page. reflexivity.
  - cbn [clean_lines forallb] in Hclean. apply andb_true_iff in Hclean.
    destruct Hclean as [Hl Hls].
    destruct (build_spans_clean (LineDict.spans l) n Hl) as [[spans n1] Hspans].
    destruct (IH n1 Hls) as [[lines n2] Hrest].
    destruct (Qltb 0 (Line.area (Line.mk spans (LineDict.bbox l)))) eqn:Harea;
      eexists; intros page; cbn [build_lines]; rewrite Hspans; cbn [bind];
      rewrite Hrest; cbn [bind]; rewrite Harea; reflexivity.
Qed.

Lemma build_blocks_clean (bs : list BlockDict.t) (n : Z) :
  clean_blocks settings bs = true ->
  exists r, forall page, build_blocks settings page pnum tess_lang bs n = Ok r.
Proof.
  revert n. induction bs as [| b bs IH]; intros n Hclean.
  - eexists. intros page. reflexivity.
  - cbn [clean_blocks forallb] in Hclean. apply andb_true_iff in Hclean.
    destruct Hclean as [Hb Hbs].
    destruct (build_lines_clean (BlockDict.lines b) n Hb) as [[lines n1] Hlines].
    destruct (IH n1 Hbs) as [[blocks n2] Hrest].
    destruct (0 <? len_list lines) eqn:Hlen;
      eexists; intros page; cbn [build_blocks]; rewrite Hlines; cbn [bind];
      rewrite Hrest; cbn [bind]; rewrite Hlen; reflexivity.
Qed.

End CleanText.

(** X11: on a page none of whose native span texts holds an invalid
    character, the native pass returns and does not depend on the OCR
    engine: it gives the same blocks on any page object with the same
    native blocks, whatever its OCR calls would answer or raise. *)
Theorem get_single_page_blocks_clean (settings : Settings)
    (tok : string -> list string) (unk : string -> list string -> list string)
    (page : Fitz.Page) (pnum : Z) (tess_lang : string)
    (spell_lang : option string) :
  clean_blocks settings (get_text_dict page) = true ->
  exists page_blocks,
    get_single_page_blocks settings tok unk page pnum tess_lang spell_lang false
      = Ok page_blocks
    /\ forall page',
         get_text_dict page' = get_text_dict page ->
         get_single_page_blocks settings tok unk page' pnum tess_lang spell_lang false
         = Ok page_blocks.
Proof.
  intros Hclean.
  destruct (build_blocks_clean settings pnum tess_lang _ 0 Hclean)
    as [[blocks n] Hbuild].
  exists blocks. unfold get_single_page_blocks. split.
  - cbn [bind]. now rewrite Hbuild.
  - intros page' Hsame. cbn [bind]. now rewrite Hsame, Hbuild.
Qed.

Lemma get_single_page_blocks_clean_witness :
  exists page_blocks,
    get_single_page_blocks Fixtures.settings Fixtures.wordpunct_tokenize
      Fixtures.spell_unknown Fixtures.mixed_page 7 "eng" None false
      = Ok page_blocks
    /\ get_single_page_blocks Fixtures.settings Fixtures.wordpunct_tokenize
         Fixtures.spell_unknown MoreFixtures.broken_ocr_page 7 "eng" None false
       = Ok page_blocks.
Proof.
  destruct (get_single_page_blocks_clean Fixtures.settings
              Fixtures.wordpunct_tokenize Fixtures.spell_unknown
              Fixtures.mixed_page 7 "eng" None) as (page_blocks & Hown & Hany).
  - vm_compute. reflexivity.
  - exists page_blocks. split; [exact Hown |]. apply Hany. reflexivity.
Defined.

(** ** [get_text_blocks]: pages at the extremities, the page limit *)

(** X12: a page that is among the first 3 or the last 2 of the
    document is never re-processed with full-page OCR: the page object
    [get_text_blocks] returns for it is the one of the native pass. *)
Theorem get_text_blocks_extremity_native (settings : Settings)
    (tok : string -> list string) (unk : string -> list string -> list string)
    (doc : Document) (tess_lang : string) (spell_lang : option string)
    (max_pages : option Z) (p : nat) (page : Fitz.Page)
    (page_list : list Page.t) (toc : list TocEntry) :
  nth_error (pages doc) p = Some page ->
  (p < page_limit max_pages (List.length (pages doc)))%nat ->
  ~ middle_page (Z.of_nat p) (len_list (pages doc)) ->
  get_text_blocks settings tok unk doc tess_lang spell_lang max_pages
    = Ok (page_list, toc) ->
  exists page_obj,
    native_page settings tok unk tess_lang page (Z.of_nat p) = Ok page_obj
    /\ nth_error page_list p = Some page_obj.
Proof.
  intros Hnth Hlim Hedge Hget.
  pose proof (nth_error_lt _ _ _ Hnth) as Hlt.
  rewrite get_text_blocks_limit in Hget. bind_inv Hget. injection Hget as <- _.
  destruct (state_before_prefix _ _ _ _ _ _ (S p) _ _ Hlim Hr)
    as (sta & new & Hsta & Hnew).
  rewrite (state_before_S _ _ _ _ _ _ _ _ Hnth) in Hsta. bind_inv Hsta.
  destruct (process_page_inv _ _ _ _ _ _ _ _ _ _ Hsta)
    as (page_obj & conds & pg & Hnat & Hconds & Hall & _ & _ & Hkeep & _).
  rewrite conditions_ok in Hconds. injection Hconds as <-.
  assert (Hpos : (2 <? Z.of_nat p) && (Z.of_nat p <? len_list (pages doc) - 2)
                 = false).
  { apply not_true_iff_false. intros Ht. apply Hedge. unfold middle_page.
    apply andb_true_iff in Ht. now rewrite !Z.ltb_lt in Ht. }
  rewrite all_pair, Hpos, andb_false_r in Hkeep. specialize (Hkeep eq_refl).
  subst pg. exists page_obj. split; [exact Hnat |].
  destruct (state_before_pages _ _ _ _ _ _ _ _ (Nat.lt_le_incl _ _ Hlt) Hr0)
    as [_ Hlen].
  rewrite Hnew, Hall, <- app_assoc, nth_error_app2 by lia.
  now rewrite Hlen, Nat.sub_diag.
Qed.

Lemma get_text_blocks_extremity_native_witness :
  exists page_list page_obj,
    get_text_blocks Fixtures.settings Fixtures.wordpunct_tokenize
      Fixtures.spell_unknown Fixtures.doc_ten "eng" (Some "en") None
      = Ok (page_list, get_toc Fixtures.doc_ten)
    /\ native_page Fixtures.settings Fixtures.wordpunct_tokenize
         Fixtures.spell_unknown "eng" Fixtures.good_page 8 = Ok page_obj
    /\ nth_error page_list 8 = Some page_obj.
Proof.
  assert (Hrun : exists page_list,
             get_text_blocks Fixtures.settings Fixtures.wordpunct_tokenize
               Fixtures.spell_unknown Fixtures.doc_ten "eng" (Some "en") None
             = Ok (page_list, get_toc Fixtures.doc_ten))
    by (eexists; vm_compute; reflexivity).
  destruct Hrun as [page_list Hrun].
  destruct (get_text_blocks_extremity_native Fixtures.settings
              Fixtures.wordpunct_tokenize Fixtures.spell_unknown
              Fixtures.doc_ten "eng" (Some "en") None 8 Fixtures.good_page
              page_list (get_toc Fixtures.doc_ten)) as (page_obj & Hnat & Hnth).
  - reflexivity.
  - cbn. lia.
  - unfold middle_page. cbn. lia.
  - exact Hrun.
  - exists page_list, page_obj. split; [exact Hrun |].
    split; [exact Hnat | exact Hnth].
Defined.

(** X13: a negative [max_pages] is truthy and is reached at the first
    page: [get_text_blocks] then returns no page at all, with the table
    of contents, and consults no page. *)
Theorem get_text_blocks_negative_limit (settings : Settings)
    (tok : string -> list string) (unk : string -> list string -> list string)
    (doc : Document) (tess_lang : string) (spell_lang : option string) (m : Z) :
  m < 0 ->
  get_text_blocks settings tok unk doc tess_lang spell_lang (Some m)
  = Ok ([], get_toc doc).
Proof.
  intros Hm. rewrite get_text_blocks_limit. unfold page_limit.
  destruct (Z.eqb_spec m 0); [lia |].
  replace (Z.to_nat m) with 0%nat by lia. reflexivity.
Qed.

Lemma get_text_blocks_negative_limit_witness :
  get_text_blocks Fixtures.settings Fixtures.wordpunct_tokenize
    Fixtures.spell_unknown Fixtures.doc_blank_scan "eng" (Some "en") (Some (-1))
  = Ok ([], get_toc Fixtures.doc_blank_scan).
Proof.
  apply get_text_blocks_negative_limit. lia.
Defined.

(** X14: a page limit only cuts the result short: when the run
    without a limit returns, the run with a limit returns the first
    [page_limit] pages of the same list, and the same table of
    contents. *)
Theorem get_text_blocks_limit_prefix (settings : Settings)
    (tok : string -> list string) (unk : string -> list string -> list string)
    (doc : Document) (tess_lang : string) (spell_lang : option string)
    (max_pages : option Z) (page_list : list Page.t) (toc : list TocEntry) :
  get_text_blocks settings tok unk doc tess_lang spell_lang None
    = Ok (page_list, toc) ->
  get_text_blocks settings tok unk doc tess_lang spell_lang max_pages
  = Ok (firstn (page_limit max_pages (List.length (pages doc))) page_list, toc).
Proof.
  intros Hall. rewrite get_text_blocks_limit in Hall |- *.
  cbn [page_limit] in Hall. bind_inv Hall. injection Hall as <- <-.
  destruct (state_before_prefix _ _ _ _ _ _
              (page_limit max_pages (List.length (pages doc))) _ _
              (page_limit_le _ _) Hr) as (sta & new & Hsta & Hnew).
  destruct (state_before_pages _ _ _ _ _ _ _ _ (page_limit_le _ _) Hsta)
    as [_ Hlen].
  rewrite Hsta. cbn [bind]. rewrite Hnew. f_equal. f_equal.
  rewrite <- Hlen at 1.
  now rewrite firstn_app, firstn_all, Nat.sub_diag, firstn_O, app_nil_r.
Qed.

Lemma get_text_blocks_limit_prefix_witness :
  exists page_list,
    get_text_blocks Fixtures.settings Fixtures.wordpunct_tokenize
      Fixtures.spell_unknown Fixtures.doc_ten "eng" (Some "en") None
      = Ok (page_list, get_toc Fixtures.doc_ten)
    /\ get_text_blocks Fixtures.settings Fixtures.wordpunct_tokenize
         Fixtures.spell_unknown Fixtures.doc_ten "eng" (Some "en") (Some 4)
       = Ok (firstn 4 page_list, get_toc Fixtures.doc_ten).
Proof.
  eexists. split; [vm_compute; reflexivity |].
  apply (get_text_blocks_limit_prefix Fixtures.settings
           Fixtures.wordpunct_tokenize Fixtures.spell_unknown
           Fixtures.doc_ten "eng" (Some "en") (Some 4)).
  vm_compute. reflexivity.
Defined.

(** ** [get_text_blocks]: page numbers *)

Lemma get_single_page_blocks_pnum (settings : Settings)
    (tok : string -> list string) (unk : string -> list string -> list string)
    (page : Fitz.Page) (pnum : Z) (tess_lang : string)
    (spell_lang : option string) (ocr : bool) (blocks : list Block.t) :
  get_single_page_blocks settings tok unk page pnum tess_lang spell_lang ocr
    = Ok blocks ->
  page_numbered (Page.mk blocks pnum).
Proof.
  unfold get_single_page_blocks, page_numbered. intros H.
  bind_inv H. bind_inv H. destruct r0 as [bs n']. injection H as <-.
  exact (proj2 (proj2 (proj2 (build_blocks_from _ _ _ _ _ _ _ _ Hr0)))).
Qed.

Lemma pages_loop_numbered (settings : Settings)
    (tok : string -> list string) (unk : string -> list string -> list string)
    (doc_len : Z) (tess_lang : string) (spell_lang : option string)
    (max_pages : option Z) (rest : list Fitz.Page) (n : Z) (st st' : LoopState) :
  Forall page_numbered (all_blocks st) ->
  pages_loop settings tok unk doc_len tess_lang spell_lang max_pages rest n st
    = Ok st' ->
  Forall page_numbered (all_blocks st').
Proof.
  revert n st. induction rest as [| page rest IH]; intros n st Hst H;
    cbn [pages_loop] in H.
  - now injection H as <-.
  - destruct (limit_reached max_pages n); [now injection H as <- |].
    bind_inv H. refine (IH _ _ _ H).
    destruct (process_page_inv _ _ _ _ _ _ _ _ _ _ Hr)
      as (page_obj & conds & pg & Hnat & _ & Hall & _ & _ & Hkeep & Hocr).
    rewrite Hall. apply Forall_app. split; [exact Hst |].
    constructor; [| constructor].
    destruct (all conds).
    + destruct (Hocr eq_refl) as (blocks & Hb & ->).
      exact (get_single_page_blocks_pnum _ _ _ _ _ _ _ _ _ Hb).
    + rewrite (Hkeep eq_refl). unfold native_page in Hnat. bind_inv Hnat.
      injection Hnat as <-.
      exact (get_single_page_blocks_pnum _ _ _ _ _ _ _ _ _ Hr0).
Qed.

(** X16: page numbers are consistent through the result: the page
    objects returned are numbered 0, 1, 2, ... in order, and every block
    of a page object carries that page's number, whether the page was
    kept native or re-processed with OCR. *)
Theorem get_text_blocks_page_numbers (settings : Settings)
    (tok : string -> list string) (unk : string -> list string -> list string)
    (doc : Document) (tess_lang : string) (spell_lang : option string)
    (max_pages : option Z) (page_list : list Page.t) (toc : list TocEntry) :
  get_text_blocks settings tok unk doc tess_lang spell_lang max_pages
    = Ok (page_list, toc) ->
  map Page.pnum page_list = zrange 0 (List.length page_list)
  /\ Forall page_numbered page_list.
Proof.
  intros H. split.
  - rewrite get_text_blocks_limit in H. bind_inv H. injection H as <- _.
    destruct (state_before_pages _ _ _ _ _ _ _ _ (page_limit_le _ _) Hr)
      as [Hmap Hlen].
    now rewrite Hlen.
  - unfold get_text_blocks in H. bind_inv H. injection H as <- _.
    refine (pages_loop_numbered _ _ _ _ _ _ _ _ _ _ _ _ Hr). constructor.
Qed.

Lemma get_text_blocks_page_numbers_witness :
  exists page_list,
    get_text_blocks Fixtures.settings Fixtures.wordpunct_tokenize
      Fixtures.spell_unknown Fixtures.doc_reset "eng" (Some "en") None
      = Ok (page_list, get_toc Fixtures.doc_reset)
    /\ map Page.pnum page_list = [0; 1; 2; 3; 4; 5; 6]
    /\ Forall page_numbered page_list.
Proof.
  eexists. split; [vm_compute; reflexivity |]. split; [reflexivity |].
  apply (get_text_blocks_page_numbers Fixtures.settings
           Fixtures.wordpunct_tokenize Fixtures.spell_unknown
           Fixtures.doc_reset "eng" (Some "en") None _ (get_toc Fixtures.doc_reset)).
  vm_compute. reflexivity.
Defined.

(** ** [ocr_bbox] on a blank original *)

Lemma leading_all_whitespace (s : string) :
  all_chars isspace s = true -> leading_whitespace s = s.
Proof.
  induction s as [| c s IH]; cbn [all_chars leading_whitespace]; [reflexivity |].
  destruct (isspace c); cbn [andb]; [| discriminate].
  intros H. now rewrite IH.
Qed.

(** X17: for an original made of whitespace only, both trims remove the
    whole text, so a recognized text that is not blank comes back padded
    on each side with as many spaces as the original has characters. *)
Theorem ocr_bbox_blank_original (settings : Settings) (page : Fitz.Page)
    (old_text recognized : string) (bbox : BBox) (lang : string) :
  clip_ocr page (SEGMENT_DPI settings) bbox lang = Ok recognized ->
  truthy (strip recognized) = true ->
  strip old_text = EmptyString ->
  ocr_bbox settings page old_text bbox lang
  = Ok (repeat_char " " (String.length old_text)
        ++ recognized
        ++ repeat_char " " (String.length old_text)).
Proof.
  intros Hocr Hrec Hblank. apply strip_empty_iff in Hblank.
  rewrite (ocr_bbox_recognized _ _ _ _ _ _ Hocr Hrec).
  now rewrite (leading_all_whitespace _ Hblank), (trailing_all_whitespace _ Hblank).
Qed.

Lemma ocr_bbox_blank_original_witness :
  ocr_bbox Fixtures.settings (Fixtures.clip_page (Ok "x")) "  "
    Fixtures.box "eng" = Ok "  x  ".
Proof.
  apply (ocr_bbox_blank_original Fixtures.settings
           (Fixtures.clip_page (Ok "x")) "  " "x"); reflexivity.
Defined.
